(** * Lane-widening SIMD emitter of the shared ia32/x64 macro assembler

    A shallow embedding of
    [src/codegen/shared-ia32-x64/macro-assembler-shared-ia32-x64.cc]:
    the ten [SharedTurboAssembler] routines that emit extended
    multiplications and high-half conversions, together with an executable
    meaning for the SSE / AVX instructions they emit.

    An XMM register is a 128-bit integer, kept as a [Z]; its lanes are read
    with [mod] and [/] by powers of two, little end first. *)

From Stdlib Require Import ZArith List Bool Arith Lia.
Import ListNotations.
Local Open Scope Z_scope.

(* ================================================================== *)
(** ** Lanes of a 128-bit value *)

(** Wrap-around of a [w]-bit lane. *)
Definition trunc (w x : Z) : Z := x mod 2 ^ w.

(** Two's complement reading of a [w]-bit lane. *)
Definition signed (w x : Z) : Z :=
  if trunc w x <? 2 ^ (w - 1) then trunc w x else trunc w x - 2 ^ w.

(** Sign- or zero-extension of a [w]-bit lane to a mathematical integer. *)
Definition extend (is_signed : bool) (w x : Z) : Z :=
  if is_signed then signed w x else trunc w x.

(** The [n] lowest [w]-bit lanes of [v], lane 0 first. *)
Fixpoint lanes (w : Z) (n : nat) (v : Z) : list Z :=
  match n with
  | O => []
  | S n' => trunc w v :: lanes w n' (v / 2 ^ w)
  end.

(** The value whose [w]-bit lanes are [ls] (each lane wrapped to [w] bits). *)
Fixpoint pack (w : Z) (ls : list Z) : Z :=
  match ls with
  | [] => 0
  | l :: ls' => trunc w l + 2 ^ w * pack w ls'
  end.

(** All lanes of an XMM register seen as lanes of width [w]. *)
Definition vlanes (w : Z) (v : Z) : list Z := lanes w (Z.to_nat (128 / w)) v.

Definition low_half (l : list Z) : list Z := firstn (Nat.div2 (length l)) l.
Definition high_half (l : list Z) : list Z := skipn (Nat.div2 (length l)) l.

Fixpoint interleave (xs ys : list Z) : list Z :=
  match xs, ys with
  | x :: xs', y :: ys' => x :: y :: interleave xs' ys'
  | _, _ => []
  end.

Fixpoint zip_with (f : Z -> Z -> Z) (xs ys : list Z) : list Z :=
  match xs, ys with
  | x :: xs', y :: ys' => f x y :: zip_with f xs' ys'
  | _, _ => []
  end.

(** Two neighbouring [w]-bit lanes read as one lane of width [2w], and back. *)
Definition glue (w lo hi : Z) : Z := trunc w lo + 2 ^ w * trunc w hi.

Fixpoint join (w : Z) (ls : list Z) : list Z :=
  match ls with
  | lo :: hi :: ls' => glue w lo hi :: join w ls'
  | _ => []
  end.

Fixpoint split (w : Z) (ls : list Z) : list Z :=
  match ls with
  | [] => []
  | l :: ls' => trunc w l :: trunc w (l / 2 ^ w) :: split w ls'
  end.

(* ================================================================== *)
(** ** Meaning of the emitted instructions on register values

    The instruction methods ([punpckhbw], [vpmullw], ...) belong to the
    assembler, which is not part of these sources and only encodes them;
    what the instructions compute is fixed by the x86 instruction set.  Each
    function below gives the 128-bit result of one instruction family from
    the values of its operands. *)

(** PUNPCKL* / PUNPCKH*: interleave the low (high) halves of [a] and [b]. *)
Definition unpckl (w a b : Z) : Z :=
  pack w (interleave (low_half (vlanes w a)) (low_half (vlanes w b))).
Definition unpckh (w a b : Z) : Z :=
  pack w (interleave (high_half (vlanes w a)) (high_half (vlanes w b))).

(** PSRAW / PSRAD: arithmetic right shift of every lane; a count above
    [w - 1] fills the lane with its sign. *)
Definition psra (w a imm : Z) : Z :=
  pack w (map (fun x => signed w x / 2 ^ Z.min imm (w - 1)) (vlanes w a)).

(** PSRLW: logical right shift of every lane; a count above [w - 1] clears
    the lane. *)
Definition psrl (w a imm : Z) : Z :=
  pack w (map (fun x => if imm <? w then x / 2 ^ imm else 0) (vlanes w a)).

(** PMULLW: low [w] bits of the lane products. *)
Definition pmull (w a b : Z) : Z :=
  pack w (zip_with Z.mul (vlanes w a) (vlanes w b)).

(** PMULHW / PMULHUW: high [w] bits of the signed (unsigned) lane products. *)
Definition pmulh (w a b : Z) : Z :=
  pack w (zip_with (fun x y => signed w x * signed w y / 2 ^ w)
            (vlanes w a) (vlanes w b)).
Definition pmulhu (w a b : Z) : Z :=
  pack w (zip_with (fun x y => x * y / 2 ^ w) (vlanes w a) (vlanes w b)).

(** PSHUFD: doubleword [i] of the result is the doubleword of [a] selected by
    bits [2i+1 : 2i] of the immediate. *)
Definition shufd (a imm : Z) : Z :=
  pack 32 (map (fun i => nth (Z.to_nat (Z.land (Z.shiftr imm (2 * i)) 3))
                           (vlanes 32 a) 0)
             [0; 1; 2; 3]).

(** MOVHLPS: the high quadword of [b] goes to the low quadword of [a]; the
    high quadword of [a] stays. *)
Definition movhl (a b : Z) : Z :=
  pack 64 [nth 1 (vlanes 64 b) 0; nth 1 (vlanes 64 a) 0].

(** PMOVSX* / PMOVZX*: widen the low half of the [w]-bit lanes to [2w] bits. *)
Definition pmovsx (w a : Z) : Z :=
  pack (2 * w) (map (signed w) (low_half (vlanes w a))).
Definition pmovzx (w a : Z) : Z :=
  pack (2 * w) (low_half (vlanes w a)).

(** PMULDQ / PMULUDQ: 64-bit products of doublewords 0 and 2. *)
Definition muldq (is_signed : bool) (a b : Z) : Z :=
  let da := vlanes 32 a in
  let db := vlanes 32 b in
  pack 64 [extend is_signed 32 (nth 0 da 0) * extend is_signed 32 (nth 0 db 0);
           extend is_signed 32 (nth 2 da 0) * extend is_signed 32 (nth 2 db 0)].

(* ================================================================== *)
(** ** Registers, instructions and their execution *)

(** A register handle is its register code; two handles alias when the codes
    are equal. *)
Definition XMMRegister : Type := nat.

Notation "a == b" := (Nat.eqb a b) (at level 70, no associativity).
Notation "a != b" := (negb (Nat.eqb a b)) (at level 70, no associativity).

(** Modelled from the spec: the Instruction Emitter, whose code is outside
    these sources, has one method per machine instruction; a method takes
    register handles (and an immediate byte) and appends one instruction to
    the stream.  One constructor per method the emitter calls. *)
Inductive Instr : Type :=
  (* legacy two-operand forms: the first operand is read and overwritten *)
  | movaps (dst src : XMMRegister)
  | xorps (dst src : XMMRegister)
  | movhlps (dst src : XMMRegister)
  | punpckhbw (dst src : XMMRegister)
  | punpcklwd (dst src : XMMRegister)
  | punpckhwd (dst src : XMMRegister)
  | punpckhdq (dst src : XMMRegister)
  | psraw (dst : XMMRegister) (imm8 : Z)
  | psrlw (dst : XMMRegister) (imm8 : Z)
  | pmullw (dst src : XMMRegister)
  | pmulhw (dst src : XMMRegister)
  | pmulhuw (dst src : XMMRegister)
  | pmuldq (dst src : XMMRegister)
  | pmuludq (dst src : XMMRegister)
  | pshufd (dst src : XMMRegister) (imm8 : Z)
  | pmovsxbw (dst src : XMMRegister)
  | pmovzxbw (dst src : XMMRegister)
  | pmovsxwd (dst src : XMMRegister)
  | pmovzxwd (dst src : XMMRegister)
  | pmovsxdq (dst src : XMMRegister)
  (* extended three-operand forms *)
  | vpxor (dst src1 src2 : XMMRegister)
  | vpunpckhbw (dst src1 src2 : XMMRegister)
  | vpunpcklwd (dst src1 src2 : XMMRegister)
  | vpunpckhwd (dst src1 src2 : XMMRegister)
  | vpunpckldq (dst src1 src2 : XMMRegister)
  | vpunpckhdq (dst src1 src2 : XMMRegister)
  | vpunpckhqdq (dst src1 src2 : XMMRegister)
  | vpsraw (dst src : XMMRegister) (imm8 : Z)
  | vpsrad (dst src : XMMRegister) (imm8 : Z)
  | vpmullw (dst src1 src2 : XMMRegister)
  | vpmulhw (dst src1 src2 : XMMRegister)
  | vpmulhuw (dst src1 src2 : XMMRegister)
  | vpmuldq (dst src1 src2 : XMMRegister)
  | vpmuludq (dst src1 src2 : XMMRegister)
  | vpmovsxdq (dst src : XMMRegister).

(** The XMM register file. *)
Definition RegFile : Type := XMMRegister -> Z.

Definition upd (r : XMMRegister) (v : Z) (s : RegFile) : RegFile :=
  fun r' => if r' == r then v else s r'.

(** The register an instruction writes, and the value it leaves there: the
    two-operand forms read and overwrite their first operand, the
    three-operand forms name their destination apart. *)
Definition effect (i : Instr) (s : RegFile) : XMMRegister * Z :=
  match i with
  | movaps d a => (d, s a)
  | xorps d a => (d, Z.lxor (s d) (s a))
  | movhlps d a => (d, movhl (s d) (s a))
  | punpckhbw d a => (d, unpckh 8 (s d) (s a))
  | punpcklwd d a => (d, unpckl 16 (s d) (s a))
  | punpckhwd d a => (d, unpckh 16 (s d) (s a))
  | punpckhdq d a => (d, unpckh 32 (s d) (s a))
  | psraw d n => (d, psra 16 (s d) n)
  | psrlw d n => (d, psrl 16 (s d) n)
  | pmullw d a => (d, pmull 16 (s d) (s a))
  | pmulhw d a => (d, pmulh 16 (s d) (s a))
  | pmulhuw d a => (d, pmulhu 16 (s d) (s a))
  | pmuldq d a => (d, muldq true (s d) (s a))
  | pmuludq d a => (d, muldq false (s d) (s a))
  | pshufd d a n => (d, shufd (s a) n)
  | pmovsxbw d a => (d, pmovsx 8 (s a))
  | pmovzxbw d a => (d, pmovzx 8 (s a))
  | pmovsxwd d a => (d, pmovsx 16 (s a))
  | pmovzxwd d a => (d, pmovzx 16 (s a))
  | pmovsxdq d a => (d, pmovsx 32 (s a))
  | vpxor d a b => (d, Z.lxor (s a) (s b))
  | vpunpckhbw d a b => (d, unpckh 8 (s a) (s b))
  | vpunpcklwd d a b => (d, unpckl 16 (s a) (s b))
  | vpunpckhwd d a b => (d, unpckh 16 (s a) (s b))
  | vpunpckldq d a b => (d, unpckl 32 (s a) (s b))
  | vpunpckhdq d a b => (d, unpckh 32 (s a) (s b))
  | vpunpckhqdq d a b => (d, unpckh 64 (s a) (s b))
  | vpsraw d a n => (d, psra 16 (s a) n)
  | vpsrad d a n => (d, psra 32 (s a) n)
  | vpmullw d a b => (d, pmull 16 (s a) (s b))
  | vpmulhw d a b => (d, pmulh 16 (s a) (s b))
  | vpmulhuw d a b => (d, pmulhu 16 (s a) (s b))
  | vpmuldq d a b => (d, muldq true (s a) (s b))
  | vpmuludq d a b => (d, muldq false (s a) (s b))
  | vpmovsxdq d a => (d, pmovsx 32 (s a))
  end.

Definition step (i : Instr) (s : RegFile) : RegFile :=
  upd (fst (effect i s)) (snd (effect i s)) s.

Fixpoint exec (p : list Instr) (s : RegFile) : RegFile :=
  match p with
  | [] => s
  | i :: p' => exec p' (step i s)
  end.

(* ================================================================== *)
(** ** The assembler's instruction stream *)

(** What an emitting routine leaves behind: the instruction stream with the
    routine's instructions appended, or a failed debug check. *)
Inductive Emitted : Type :=
  | Code (buf : list Instr)
  | DcheckFailure.

Definition Asm : Type := list Instr -> Emitted.

Definition emit (i : Instr) : Asm := fun buf => Code (buf ++ [i]).
Coercion emit : Instr >-> Asm.

Definition nop : Asm := fun buf => Code buf.

Definition seq (a b : Asm) : Asm :=
  fun buf => match a buf with
             | Code buf' => b buf'
             | DcheckFailure => DcheckFailure
             end.

Notation "a ;; b" := (seq a b) (at level 61, right associativity).

(** [if (c) { a }] with no else branch. *)
Definition when (c : bool) (a : Asm) : Asm := if c then a else nop.

Inductive CpuFeature : Type := AVX | SSE4_1.

(* ================================================================== *)
(** ** The emitter, [SharedTurboAssembler] *)

Section Emitter.

(** [CpuFeatures::IsSupported], the feature query. *)
Variable IsSupported : CpuFeature -> bool.

(** Whether debug checks are compiled in. *)
Variable DEBUG : bool.

(** Modelled from the spec: the feature-scoped emission guard
    [CpuFeatureScope], declared outside these sources.  It permits the
    instructions of a feature set for its extent and appends nothing to the
    instruction stream. *)
Definition CpuFeatureScope (f : CpuFeature) : Asm := nop.

(** Modelled from the spec: the development-time assertion [DCHECK_EQ],
    declared outside these sources; it is checked in debug builds and
    eliminated in release builds. *)
Definition DCHECK_EQ (a b : XMMRegister) : Asm :=
  if DEBUG && (a != b) then (fun _ => DcheckFailure) else nop.

Definition I16x8ExtMulHighS (dst src1 src2 scratch : XMMRegister) : Asm :=
  if IsSupported AVX then
    CpuFeatureScope AVX ;;
    vpunpckhbw scratch src1 src1 ;;
    vpsraw scratch scratch 8 ;;
    vpunpckhbw dst src2 src2 ;;
    vpsraw dst dst 8 ;;
    vpmullw dst dst scratch
  else
    when (dst != src1) (movaps dst src1) ;;
    movaps scratch src2 ;;
    punpckhbw dst dst ;;
    psraw dst 8 ;;
    punpckhbw scratch scratch ;;
    psraw scratch 8 ;;
    pmullw dst scratch.

Definition I16x8ExtMulHighU (dst src1 src2 scratch : XMMRegister) : Asm :=
  if IsSupported AVX then
    CpuFeatureScope AVX ;;
    if src1 == src2 then
      vpxor scratch scratch scratch ;;
      vpunpckhbw dst src1 scratch ;;
      vpmullw dst dst dst
    else
      (* std::swap(src1, src2) when dst == src2 *)
      let '(src1, src2) :=
        if dst == src2 then (src2, src1) else (src1, src2) in
      vpxor scratch scratch scratch ;;
      vpunpckhbw dst src1 scratch ;;
      vpunpckhbw scratch src2 scratch ;;
      vpmullw dst dst scratch
  else
    if src1 == src2 then
      xorps scratch scratch ;;
      when (dst != src1) (movaps dst src1) ;;
      punpckhbw dst scratch ;;
      pmullw dst scratch
    else
      let rest (src1 src2 : XMMRegister) : Asm :=
        xorps scratch scratch ;;
        punpckhbw dst scratch ;;
        punpckhbw scratch src2 ;;
        psrlw scratch 8 ;;
        pmullw dst scratch in
      if dst == src2 then
        (* std::swap(src1, src2): now dst == src1 *)
        rest src2 src1
      else
        when (dst != src1) (movaps dst src1) ;;
        rest src1 src2.

Definition I16x8SConvertI8x16High (dst src : XMMRegister) : Asm :=
  if IsSupported AVX then
    CpuFeatureScope AVX ;;
    vpunpckhbw dst src src ;;
    vpsraw dst dst 8
  else
    CpuFeatureScope SSE4_1 ;;
    if dst == src then
      movhlps dst src ;;
      pmovsxbw dst dst
    else
      pshufd dst src 0xEE ;;
      pmovsxbw dst dst.

Definition I16x8UConvertI8x16High (dst src scratch : XMMRegister) : Asm :=
  if IsSupported AVX then
    CpuFeatureScope AVX ;;
    let tmp := if dst == src then scratch else dst in
    vpxor tmp tmp tmp ;;
    vpunpckhbw dst src tmp
  else
    CpuFeatureScope SSE4_1 ;;
    if dst == src then
      xorps scratch scratch ;;
      punpckhbw dst scratch
    else
      pshufd dst src 0xEE ;;
      pmovzxbw dst dst.

Definition I32x4ExtMul (dst src1 src2 scratch : XMMRegister)
    (low is_signed : bool) : Asm :=
  if IsSupported AVX then
    CpuFeatureScope AVX ;;
    vpmullw scratch src1 src2 ;;
    (if is_signed then vpmulhw dst src1 src2 else vpmulhuw dst src1 src2) ;;
    (if low then vpunpcklwd dst scratch dst else vpunpckhwd dst scratch dst)
  else
    DCHECK_EQ dst src1 ;;
    movaps scratch src1 ;;
    pmullw dst src2 ;;
    (if is_signed then pmulhw scratch src2 else pmulhuw scratch src2) ;;
    (if low then punpcklwd dst scratch else punpckhwd dst scratch).

Definition I32x4SConvertI16x8High (dst src : XMMRegister) : Asm :=
  if IsSupported AVX then
    CpuFeatureScope AVX ;;
    vpunpckhwd dst src src ;;
    vpsrad dst dst 16
  else
    CpuFeatureScope SSE4_1 ;;
    if dst == src then
      movhlps dst src ;;
      pmovsxwd dst dst
    else
      pshufd dst src 0xEE ;;
      pmovsxwd dst dst.

Definition I32x4UConvertI16x8High (dst src scratch : XMMRegister) : Asm :=
  if IsSupported AVX then
    CpuFeatureScope AVX ;;
    let tmp := if dst == src then scratch else dst in
    vpxor tmp tmp tmp ;;
    vpunpckhwd dst src tmp
  else
    if dst == src then
      xorps scratch scratch ;;
      punpckhwd dst scratch
    else
      CpuFeatureScope SSE4_1 ;;
      pshufd dst src 0xEE ;;
      pmovzxwd dst dst.

Definition I64x2ExtMul (dst src1 src2 scratch : XMMRegister)
    (low is_signed : bool) : Asm :=
  if IsSupported AVX then
    CpuFeatureScope AVX ;;
    (if low then
       vpunpckldq scratch src1 src1 ;;
       vpunpckldq dst src2 src2
     else
       vpunpckhdq scratch src1 src1 ;;
       vpunpckhdq dst src2 src2) ;;
    (if is_signed then vpmuldq dst scratch dst
     else vpmuludq dst scratch dst)
  else
    let mask := if low then 0x50 else 0xFA in
    pshufd scratch src1 mask ;;
    pshufd dst src2 mask ;;
    (if is_signed then
       CpuFeatureScope SSE4_1 ;;
       pmuldq dst scratch
     else
       pmuludq dst scratch).

Definition I64x2SConvertI32x4High (dst src : XMMRegister) : Asm :=
  if IsSupported AVX then
    CpuFeatureScope AVX ;;
    vpunpckhqdq dst src src ;;
    vpmovsxdq dst dst
  else
    CpuFeatureScope SSE4_1 ;;
    (if dst == src then movhlps dst src else pshufd dst src 0xEE) ;;
    pmovsxdq dst dst.

Definition I64x2UConvertI32x4High (dst src scratch : XMMRegister) : Asm :=
  if IsSupported AVX then
    CpuFeatureScope AVX ;;
    vpxor scratch scratch scratch ;;
    vpunpckhdq dst src scratch
  else
    when (dst != src) (movaps dst src) ;;
    xorps scratch scratch ;;
    punpckhdq dst scratch.

End Emitter.

(** The instructions a routine appends to an empty stream, and the register
    file after running them; [None] when a debug check stopped the
    emission. *)
Definition assemble (a : Asm) : Emitted := a [].

Definition run (a : Asm) (s : RegFile) : option RegFile :=
  match assemble a with
  | Code p => Some (exec p s)
  | DcheckFailure => None
  end.

(** The two feature settings. *)
Definition with_avx : CpuFeature -> bool := fun _ => true.
Definition without_avx : CpuFeature -> bool :=
  fun f => match f with AVX => false | SSE4_1 => true end.

(* ================================================================== *)
(** ** The scalar reference

    What each routine is to leave in its destination, computed lane by lane
    from the source values alone: the chosen half of the [w]-bit lanes is
    sign- or zero-extended and (for the multiplications) multiplied, and the
    results fill lanes of width [2w]. *)

Definition ref_extmul (w : Z) (low is_signed : bool) (a b : Z) : Z :=
  let half := if low then low_half else high_half in
  pack (2 * w)
    (zip_with (fun x y => extend is_signed w x * extend is_signed w y)
       (half (vlanes w a)) (half (vlanes w b))).

Definition ref_convert_high (w : Z) (is_signed : bool) (a : Z) : Z :=
  pack (2 * w) (map (extend is_signed w) (high_half (vlanes w a))).

(** The doubleword pattern both forms of [I64x2ExtMul] build before
    multiplying: each doubleword of the low (high) half of [a], twice, so
    that the two of them sit in doublewords 0 and 2. *)
Definition dup_half (low : bool) (a : Z) : Z :=
  let d := vlanes 32 a in
  pack 32 (if low then [nth 0 d 0; nth 0 d 0; nth 1 d 0; nth 1 d 0]
           else [nth 2 d 0; nth 2 d 0; nth 3 d 0; nth 3 d 0]).

(* ================================================================== *)
(** ** The routines as one family *)

(** The value a routine leaves in register [r]. *)
Definition result (a : Asm) (s : RegFile) (r : XMMRegister) : option Z :=
  match run a s with
  | Some s' => Some (s' r)
  | None => None
  end.

(** One call of the emitter: the routine and its arguments. *)
Inductive Operation : Type :=
  | Op_I16x8ExtMulHighS (dst src1 src2 scratch : XMMRegister)
  | Op_I16x8ExtMulHighU (dst src1 src2 scratch : XMMRegister)
  | Op_I16x8SConvertI8x16High (dst src : XMMRegister)
  | Op_I16x8UConvertI8x16High (dst src scratch : XMMRegister)
  | Op_I32x4ExtMul (dst src1 src2 scratch : XMMRegister) (low is_signed : bool)
  | Op_I32x4SConvertI16x8High (dst src : XMMRegister)
  | Op_I32x4UConvertI16x8High (dst src scratch : XMMRegister)
  | Op_I64x2ExtMul (dst src1 src2 scratch : XMMRegister) (low is_signed : bool)
  | Op_I64x2SConvertI32x4High (dst src : XMMRegister)
  | Op_I64x2UConvertI32x4High (dst src scratch : XMMRegister).

Definition call (IsSupported : CpuFeature -> bool) (DEBUG : bool)
    (op : Operation) : Asm :=
  match op with
  | Op_I16x8ExtMulHighS d a b t => I16x8ExtMulHighS IsSupported d a b t
  | Op_I16x8ExtMulHighU d a b t => I16x8ExtMulHighU IsSupported d a b t
  | Op_I16x8SConvertI8x16High d a => I16x8SConvertI8x16High IsSupported d a
  | Op_I16x8UConvertI8x16High d a t => I16x8UConvertI8x16High IsSupported d a t
  | Op_I32x4ExtMul d a b t low sg => I32x4ExtMul IsSupported DEBUG d a b t low sg
  | Op_I32x4SConvertI16x8High d a => I32x4SConvertI16x8High IsSupported d a
  | Op_I32x4UConvertI16x8High d a t => I32x4UConvertI16x8High IsSupported d a t
  | Op_I64x2ExtMul d a b t low sg => I64x2ExtMul IsSupported d a b t low sg
  | Op_I64x2SConvertI32x4High d a => I64x2SConvertI32x4High IsSupported d a
  | Op_I64x2UConvertI32x4High d a t => I64x2UConvertI32x4High IsSupported d a t
  end.

Definition op_dst (op : Operation) : XMMRegister :=
  match op with
  | Op_I16x8ExtMulHighS d _ _ _ | Op_I16x8ExtMulHighU d _ _ _
  | Op_I16x8SConvertI8x16High d _ | Op_I16x8UConvertI8x16High d _ _
  | Op_I32x4ExtMul d _ _ _ _ _
  | Op_I32x4SConvertI16x8High d _ | Op_I32x4UConvertI16x8High d _ _
  | Op_I64x2ExtMul d _ _ _ _ _
  | Op_I64x2SConvertI32x4High d _ | Op_I64x2UConvertI32x4High d _ _ => d
  end.

Definition op_sources (op : Operation) : list XMMRegister :=
  match op with
  | Op_I16x8ExtMulHighS _ a b _ | Op_I16x8ExtMulHighU _ a b _
  | Op_I32x4ExtMul _ a b _ _ _ | Op_I64x2ExtMul _ a b _ _ _ => [a; b]
  | Op_I16x8SConvertI8x16High _ a | Op_I16x8UConvertI8x16High _ a _
  | Op_I32x4SConvertI16x8High _ a | Op_I32x4UConvertI16x8High _ a _
  | Op_I64x2SConvertI32x4High _ a | Op_I64x2UConvertI32x4High _ a _ => [a]
  end.

Definition op_scratch (op : Operation) : option XMMRegister :=
  match op with
  | Op_I16x8ExtMulHighS _ _ _ t | Op_I16x8ExtMulHighU _ _ _ t
  | Op_I16x8UConvertI8x16High _ _ t
  | Op_I32x4ExtMul _ _ _ t _ _
  | Op_I32x4UConvertI16x8High _ _ t
  | Op_I64x2ExtMul _ _ _ t _ _
  | Op_I64x2UConvertI32x4High _ _ t => Some t
  | Op_I16x8SConvertI8x16High _ _ | Op_I32x4SConvertI16x8High _ _
  | Op_I64x2SConvertI32x4High _ _ => None
  end.

(** The scratch handle, when there is one, is none of the other operands. *)
Definition scratch_distinct (op : Operation) : bool :=
  match op_scratch op with
  | Some t => forallb (fun r => t != r) (op_dst op :: op_sources op)
  | None => true
  end.

(** What the scalar reference leaves in the destination. *)
Definition reference (op : Operation) (s : RegFile) : Z :=
  match op with
  | Op_I16x8ExtMulHighS _ a b _ => ref_extmul 8 false true (s a) (s b)
  | Op_I16x8ExtMulHighU _ a b _ => ref_extmul 8 false false (s a) (s b)
  | Op_I16x8SConvertI8x16High _ a => ref_convert_high 8 true (s a)
  | Op_I16x8UConvertI8x16High _ a _ => ref_convert_high 8 false (s a)
  | Op_I32x4ExtMul _ a b _ low sg => ref_extmul 16 low sg (s a) (s b)
  | Op_I32x4SConvertI16x8High _ a => ref_convert_high 16 true (s a)
  | Op_I32x4UConvertI16x8High _ a _ => ref_convert_high 16 false (s a)
  | Op_I64x2ExtMul _ a b _ low sg => ref_extmul 32 low sg (s a) (s b)
  | Op_I64x2SConvertI32x4High _ a => ref_convert_high 32 true (s a)
  | Op_I64x2UConvertI32x4High _ a _ => ref_convert_high 32 false (s a)
  end.

(** The caller obligation of the legacy form of [I32x4ExtMul], the one its
    [DCHECK_EQ] states: the destination is the first source. *)
Definition legacy_precondition (IsSupported : CpuFeature -> bool)
    (op : Operation) : bool :=
  match op with
  | Op_I32x4ExtMul d a _ _ _ _ => IsSupported AVX || (d == a)
  | _ => true
  end.

(** The emission goes through: no debug check stops it. *)
Definition dcheck_passes (IsSupported : CpuFeature -> bool) (DEBUG : bool)
    (op : Operation) : bool :=
  negb DEBUG || legacy_precondition IsSupported op.

(** Three legacy-form configurations in which the emitted sequence reads an
    operand after it has overwritten it, or multiplies by the zeroed scratch
    register:
    - [I16x8ExtMulHighS] with the destination equal to the second source
      only: the copy of the first source into the destination comes before
      the second source is read;
    - [I16x8ExtMulHighU] with one register for both sources: the product is
      taken with the scratch register, which holds zero;
    - [I32x4ExtMul] with the second source equal to the destination: the
      high products read the second source after the low products have
      replaced it. *)
Definition legacy_defect (IsSupported : CpuFeature -> bool)
    (op : Operation) : bool :=
  negb (IsSupported AVX) &&
  match op with
  | Op_I16x8ExtMulHighS d a b _ => (d == b) && (d != a)
  | Op_I16x8ExtMulHighU _ a b _ => a == b
  | Op_I32x4ExtMul d _ b _ _ _ => d == b
  | _ => false
  end.

(** The register an instruction writes. *)
Definition target (i : Instr) : XMMRegister := fst (effect i (fun _ => 0)).

(** The registers a call may write: its destination and its scratch. *)
Definition op_written (op : Operation) : list XMMRegister :=
  op_dst op :: match op_scratch op with Some t => [t] | None => [] end.

(* ================================================================== *)
(** ** How the two widest multiplications proceed *)

(** The code [p] is a body and a last instruction; after the body register
    [lo] holds the low words of the 16-bit lane products of the sources and
    register [hi] their high words (signed or unsigned), and the last
    instruction interleaves [lo] with [hi] into [dst], low or high halves by
    the [low] flag. *)
Definition multiplies_then_interleaves (p : list Instr) (s : RegFile)
    (src1 src2 : XMMRegister) (low is_signed : bool)
    (lo hi dst : XMMRegister) : Prop :=
  exists body last,
    p = body ++ [last] /\
    exec body s lo = pmull 16 (s src1) (s src2) /\
    exec body s hi =
      (if is_signed then pmulh 16 else pmulhu 16) (s src1) (s src2) /\
    effect last (exec body s) =
      (dst, (if low then unpckl 16 else unpckh 16)
              (exec body s lo) (exec body s hi)).

(** Where the legacy form of [I32x4ExtMul] keeps the two halves: it has the
    destination as first operand of the low multiplication. *)
Definition low_words_register (IsSupported : CpuFeature -> bool)
    (dst scratch : XMMRegister) : XMMRegister :=
  if IsSupported AVX then scratch else dst.

Definition high_words_register (IsSupported : CpuFeature -> bool)
    (dst scratch : XMMRegister) : XMMRegister :=
  if IsSupported AVX then dst else scratch.

(** The pattern "even doublewords duplicated, or odd doublewords
    duplicated", to be compared with [dup_half]. *)
Definition dup_even_odd (low : bool) (a : Z) : Z :=
  let d := vlanes 32 a in
  pack 32 (if low then [nth 0 d 0; nth 0 d 0; nth 2 d 0; nth 2 d 0]
           else [nth 1 d 0; nth 1 d 0; nth 3 d 0; nth 3 d 0]).

(** The code [p] is two shuffles and a multiplication: after the first two
    instructions [scratch] and [dst] hold the pattern [dup] of the first and
    of the second source, and the whole of [p] leaves in [dst] the widening
    product of the two patterns. *)
Definition shuffles_then_multiplies (dup : bool -> Z -> Z) (p : list Instr)
    (s : RegFile) (dst src1 src2 scratch : XMMRegister)
    (low is_signed : bool) : Prop :=
  exists body last,
    p = body ++ [last] /\ length body = 2%nat /\
    exec body s scratch = dup low (s src1) /\
    exec body s dst = dup low (s src2) /\
    exec p s dst = muldq is_signed (dup low (s src1)) (dup low (s src2)).

(* ================================================================== *)
(** ** Concrete registers and register files *)

Definition xmm0 : XMMRegister := 0%nat.
Definition xmm1 : XMMRegister := 1%nat.
Definition xmm2 : XMMRegister := 2%nat.
Definition xmm3 : XMMRegister := 3%nat.

(** The bytes 1 to 16. *)
Definition bytes_1_to_16 : Z :=
  pack 8 [1; 2; 3; 4; 5; 6; 7; 8; 9; 10; 11; 12; 13; 14; 15; 16].

(** The squares of 9 to 16 as eight words. *)
Definition squares_9_to_16 : Z :=
  pack 16 [81; 100; 121; 144; 169; 196; 225; 256].

(** Every register holds the bytes 1 to 16. *)
Definition all_1_to_16 : RegFile := fun _ => bytes_1_to_16.

(** xmm0 holds sixteen bytes 2, every other register sixteen bytes 3. *)
Definition twos_and_threes : RegFile :=
  fun r => match r with
           | O => pack 8 (repeat 2 16)
           | _ => pack 8 (repeat 3 16)
           end.

(** xmm0 holds zero, xmm1 eight words 3, every other register eight
    words 5. *)
Definition zero_threes_fives : RegFile :=
  fun r => match r with
           | O => 0
           | S O => pack 16 (repeat 3 8)
           | _ => pack 16 (repeat 5 8)
           end.

(** Every register holds eight words 256. *)
Definition all_256 : RegFile := fun _ => pack 16 (repeat 256 8).

(** Every register holds the doublewords 1, 2, 3, 4. *)
Definition all_1234 : RegFile := fun _ => pack 32 [1; 2; 3; 4].

(* ================================================================== *)
(** ** Further vocabulary for the routines *)

(** The extended three-operand forms among the instructions. *)
Definition is_vex (i : Instr) : bool :=
  match i with
  | vpxor _ _ _ | vpunpckhbw _ _ _ | vpunpcklwd _ _ _ | vpunpckhwd _ _ _
  | vpunpckldq _ _ _ | vpunpckhdq _ _ _ | vpunpckhqdq _ _ _
  | vpsraw _ _ _ | vpsrad _ _ _ | vpmullw _ _ _ | vpmulhw _ _ _
  | vpmulhuw _ _ _ | vpmuldq _ _ _ | vpmuludq _ _ _ | vpmovsxdq _ _ => true
  | _ => false
  end.

(** The multiplications: lane width of the sources, the half taken, the
    signedness and the two sources. *)
Definition extmul_params (op : Operation)
    : option (Z * bool * bool * XMMRegister * XMMRegister) :=
  match op with
  | Op_I16x8ExtMulHighS _ a b _ => Some (8, false, true, a, b)
  | Op_I16x8ExtMulHighU _ a b _ => Some (8, false, false, a, b)
  | Op_I32x4ExtMul _ a b _ low sg => Some (16, low, sg, a, b)
  | Op_I64x2ExtMul _ a b _ low sg => Some (32, low, sg, a, b)
  | _ => None
  end.

(** The conversions: lane width of the source, the signedness and the
    source. *)
Definition convert_params (op : Operation)
    : option (Z * bool * XMMRegister) :=
  match op with
  | Op_I16x8SConvertI8x16High _ a => Some (8, true, a)
  | Op_I16x8UConvertI8x16High _ a _ => Some (8, false, a)
  | Op_I32x4SConvertI16x8High _ a => Some (16, true, a)
  | Op_I32x4UConvertI16x8High _ a _ => Some (16, false, a)
  | Op_I64x2SConvertI32x4High _ a => Some (32, true, a)
  | Op_I64x2UConvertI32x4High _ a _ => Some (32, false, a)
  | _ => None
  end.

(** The same call with its two sources exchanged. *)
Definition swap_sources (op : Operation) : Operation :=
  match op with
  | Op_I16x8ExtMulHighS d a b t => Op_I16x8ExtMulHighS d b a t
  | Op_I16x8ExtMulHighU d a b t => Op_I16x8ExtMulHighU d b a t
  | Op_I32x4ExtMul d a b t low sg => Op_I32x4ExtMul d b a t low sg
  | Op_I64x2ExtMul d a b t low sg => Op_I64x2ExtMul d b a t low sg
  | _ => op
  end.

(** The lanes of the chosen half of a source, extended to integers. *)
Definition extended_half (w : Z) (low is_signed : bool) (a : Z) : list Z :=
  map (extend is_signed w)
    ((if low then low_half else high_half) (vlanes w a)).

(** The calls whose emitted sequence treats the two sources alike: all of
    them with AVX, and without it those of [I16x8ExtMulHighU] and
    [I64x2ExtMul] (and the conversions, which have one source). *)
Definition sources_symmetric (IsSupported : CpuFeature -> bool)
    (op : Operation) : bool :=
  IsSupported AVX ||
  match op with
  | Op_I16x8ExtMulHighS _ _ _ _ | Op_I32x4ExtMul _ _ _ _ _ _ => false
  | _ => true
  end.

(* ================================================================== *)
(** ** Lane arithmetic *)

Lemma pow2_pos (w : Z) : 0 <= w -> 0 < 2 ^ w.
Proof. intros; apply Z.pow_pos_nonneg; lia. Qed.

Lemma trunc_range (w x : Z) : 0 <= w -> 0 <= trunc w x < 2 ^ w.
Proof. intros; unfold trunc; apply Z.mod_pos_bound, pow2_pos; assumption. Qed.

Lemma trunc_small (w x : Z) : 0 <= x < 2 ^ w -> trunc w x = x.
Proof. intros; unfold trunc; apply Z.mod_small; assumption. Qed.

Lemma trunc_idem (w x : Z) : 0 <= w -> trunc w (trunc w x) = trunc w x.
Proof.
  intros; unfold trunc; apply Z.mod_mod.
  pose proof (pow2_pos w); lia.
Qed.

Lemma trunc_mul (w x y : Z) :
  0 <= w -> trunc w (trunc w x * trunc w y) = trunc w (x * y).
Proof.
  intros; unfold trunc; symmetry; apply Z.mul_mod.
  pose proof (pow2_pos w); lia.
Qed.

Lemma trunc_signed (w x : Z) : 0 <= w -> trunc w (signed w x) = trunc w x.
Proof.
  intros Hw; unfold signed.
  destruct (trunc w x <? 2 ^ (w - 1)); [apply trunc_idem; assumption|].
  unfold trunc. pose proof (pow2_pos w Hw).
  replace (x mod 2 ^ w - 2 ^ w) with (x mod 2 ^ w + (-1) * 2 ^ w) by ring.
  rewrite Z.mod_add by lia. apply Z.mod_mod; lia.
Qed.

(** [glue] is the inverse of cutting a [2w]-bit lane in two. *)
Lemma glue_trunc (w v : Z) :
  0 <= w -> glue w (trunc w v) (trunc w (v / 2 ^ w)) = trunc (w + w) v.
Proof.
  intros Hw; unfold glue. rewrite !trunc_idem by assumption.
  unfold trunc. pose proof (pow2_pos w Hw).
  rewrite Z.pow_add_r by assumption.
  symmetry; apply Z.rem_mul_r; lia.
Qed.

Lemma glue_range (w lo hi : Z) : 0 <= w -> 0 <= glue w lo hi < 2 ^ (w + w).
Proof.
  intros Hw; unfold glue.
  pose proof (trunc_range w lo Hw); pose proof (trunc_range w hi Hw).
  rewrite Z.pow_add_r by assumption. nia.
Qed.

Lemma trunc_glue_lo (w lo hi : Z) :
  0 <= w -> trunc w (glue w lo hi) = trunc w lo.
Proof.
  intros Hw; unfold glue, trunc. pose proof (pow2_pos w Hw).
  rewrite (Z.mul_comm (2 ^ w)), Z.mod_add by lia. apply Z.mod_mod; lia.
Qed.

Lemma trunc_glue_hi (w lo hi : Z) :
  0 <= w -> trunc w (glue w lo hi / 2 ^ w) = trunc w hi.
Proof.
  intros Hw; unfold glue. pose proof (pow2_pos w Hw).
  rewrite (Z.mul_comm (2 ^ w)), Z.div_add by lia.
  rewrite (Z.div_small (trunc w lo)) by (apply trunc_range; assumption).
  apply trunc_idem; assumption.
Qed.

Lemma glue_div (w lo hi : Z) :
  0 <= w -> glue w lo hi / 2 ^ w = trunc w hi.
Proof.
  intros Hw; unfold glue. pose proof (pow2_pos w Hw).
  rewrite (Z.mul_comm (2 ^ w)), Z.div_add by lia.
  rewrite (Z.div_small (trunc w lo)) by (apply trunc_range; assumption).
  reflexivity.
Qed.

(* ================================================================== *)
(** ** Lanes and packing *)

Lemma lanes_length (w : Z) (n : nat) (v : Z) : length (lanes w n v) = n.
Proof. revert v; induction n; intros; cbn; [|rewrite IHn]; reflexivity. Qed.

Lemma lanes_range (w : Z) (n : nat) (v : Z) :
  0 <= w -> Forall (fun x => 0 <= x < 2 ^ w) (lanes w n v).
Proof.
  intros Hw; revert v; induction n; intros; cbn; constructor.
  - apply trunc_range; assumption.
  - apply IHn.
Qed.

(** Reading back the lanes that were packed. *)
Lemma lanes_pack (w : Z) (ls : list Z) :
  0 <= w -> lanes w (length ls) (pack w ls) = map (trunc w) ls.
Proof.
  intros Hw; pose proof (pow2_pos w Hw).
  induction ls as [|l ls IH]; cbn [length lanes pack map]; [reflexivity|].
  f_equal.
  - unfold trunc at 1. rewrite (Z.mul_comm (2 ^ w)), Z.mod_add by lia.
    apply trunc_idem; assumption.
  - rewrite (Z.mul_comm (2 ^ w)), Z.div_add by lia.
    rewrite (Z.div_small (trunc w l)) by (apply trunc_range; assumption).
    exact IH.
Qed.

(** Lanes of width [2w] are neighbouring lanes of width [w] glued. *)
Lemma lanes_join (w : Z) (n : nat) (v : Z) :
  0 <= w -> lanes (w + w) n v = join w (lanes w (n + n) v).
Proof.
  intros Hw; pose proof (pow2_pos w Hw).
  revert v; induction n; intros; [reflexivity|].
  replace (S n + S n)%nat with (S (S (n + n))) by lia.
  cbn [lanes join]. rewrite glue_trunc by assumption. f_equal.
  rewrite IHn, Z.pow_add_r, Z.div_div by lia. reflexivity.
Qed.

Lemma pack_cons2 (w : Z) (lo hi : Z) (ls : list Z) :
  0 <= w ->
  pack w (lo :: hi :: ls) = pack w [lo; hi] + 2 ^ (w + w) * pack w ls.
Proof.
  intros Hw. cbn [pack]. rewrite Z.pow_add_r by assumption. ring.
Qed.

(** Packing wide lanes is packing their halves. *)
Lemma pack_split (w : Z) (ls : list Z) :
  0 <= w -> pack (w + w) ls = pack w (split w ls).
Proof.
  intros Hw; induction ls as [|l ls IH]; [reflexivity|].
  cbn [split]. rewrite pack_cons2, <- IH by assumption.
  cbn [pack]. rewrite <- (glue_trunc w l) by assumption.
  unfold glue. rewrite !trunc_idem by assumption. ring.
Qed.

(** Two lists of lanes that agree up to wrap-around pack to the same value. *)
Lemma pack_ext (w : Z) (ls ls' : list Z) :
  Forall2 (fun x y => trunc w x = trunc w y) ls ls' -> pack w ls = pack w ls'.
Proof.
  induction 1 as [|x y ls ls' Hxy _ IH]; cbn [pack]; [reflexivity|].
  rewrite Hxy, IH; reflexivity.
Qed.

Lemma vlanes_length (w v : Z) : length (vlanes w v) = Z.to_nat (128 / w).
Proof. apply lanes_length. Qed.

Lemma vlanes_range (w v : Z) :
  0 <= w -> Forall (fun x => 0 <= x < 2 ^ w) (vlanes w v).
Proof. apply lanes_range. Qed.

(** The lane views of a packed value, for the four lane widths of an XMM
    register. *)
Lemma vlanes_pack (w : Z) (ls : list Z) :
  0 <= w -> length ls = Z.to_nat (128 / w) ->
  vlanes w (pack w ls) = map (trunc w) ls.
Proof. intros Hw Hl; unfold vlanes; rewrite <- Hl; apply lanes_pack, Hw. Qed.

Lemma vlanes_wide (w v : Z) :
  0 <= w -> Z.to_nat (128 / w) = (Z.to_nat (128 / (w + w)) + Z.to_nat (128 / (w + w)))%nat ->
  vlanes (w + w) v = join w (vlanes w v).
Proof. intros Hw Hn; unfold vlanes; rewrite Hn; apply lanes_join, Hw. Qed.

Lemma vlanes_narrow (w : Z) (ls : list Z) :
  0 <= w -> length (split w ls) = Z.to_nat (128 / w) ->
  vlanes w (pack (w + w) ls) = map (trunc w) (split w ls).
Proof.
  intros Hw Hl. rewrite pack_split by assumption. apply vlanes_pack; assumption.
Qed.

(** The lane views of a packed value, width by width. *)
Lemma vlanes16_pack8 (ls : list Z) :
  length ls = 16%nat -> vlanes 16 (pack 8 ls) = join 8 ls.
Proof.
  intros H. rewrite (vlanes_wide 8) by (try reflexivity; lia).
  rewrite vlanes_pack by (try assumption; lia).
  do 17 (destruct ls as [|? ls]; try discriminate H).
  cbn [map join]. unfold glue. rewrite !trunc_idem by lia. reflexivity.
Qed.

Lemma vlanes32_pack16 (ls : list Z) :
  length ls = 8%nat -> vlanes 32 (pack 16 ls) = join 16 ls.
Proof.
  intros H. rewrite (vlanes_wide 16) by (try reflexivity; lia).
  rewrite vlanes_pack by (try assumption; lia).
  do 9 (destruct ls as [|? ls]; try discriminate H).
  cbn [map join]. unfold glue. rewrite !trunc_idem by lia. reflexivity.
Qed.

Lemma vlanes32_pack64 (ls : list Z) :
  length ls = 2%nat -> vlanes 32 (pack 64 ls) = map (trunc 32) (split 32 ls).
Proof.
  intros H. apply (vlanes_narrow 32); [lia|].
  do 3 (destruct ls as [|? ls]; try discriminate H). reflexivity.
Qed.

Lemma vlanes16_pack32 (ls : list Z) :
  length ls = 4%nat -> vlanes 16 (pack 32 ls) = map (trunc 16) (split 16 ls).
Proof.
  intros H. apply (vlanes_narrow 16); [lia|].
  do 5 (destruct ls as [|? ls]; try discriminate H). reflexivity.
Qed.

Lemma vlanes8_pack16 (ls : list Z) :
  length ls = 8%nat -> vlanes 8 (pack 16 ls) = map (trunc 8) (split 8 ls).
Proof.
  intros H. apply (vlanes_narrow 8); [lia|].
  do 9 (destruct ls as [|? ls]; try discriminate H). reflexivity.
Qed.

Lemma vlanes16_pack64 (ls : list Z) :
  length ls = 2%nat ->
  vlanes 16 (pack 64 ls) = map (trunc 16) (split 16 (split 32 ls)).
Proof.
  intros H. rewrite (pack_split 32) by lia. apply vlanes16_pack32.
  do 3 (destruct ls as [|? ls]; try discriminate H). reflexivity.
Qed.

Lemma vlanes8_pack32 (ls : list Z) :
  length ls = 4%nat ->
  vlanes 8 (pack 32 ls) = map (trunc 8) (split 8 (split 16 ls)).
Proof.
  intros H. rewrite (pack_split 16) by lia. apply vlanes8_pack16.
  do 5 (destruct ls as [|? ls]; try discriminate H). reflexivity.
Qed.

Lemma vlanes8_pack64 (ls : list Z) :
  length ls = 2%nat ->
  vlanes 8 (pack 64 ls) = map (trunc 8) (split 8 (split 16 (split 32 ls))).
Proof.
  intros H. rewrite (pack_split 32) by lia. apply vlanes8_pack32.
  do 3 (destruct ls as [|? ls]; try discriminate H). reflexivity.
Qed.

(** The wider lane views of any register value, from the narrower ones. *)
Lemma vlanes16_bytes (v : Z) : vlanes 16 v = join 8 (vlanes 8 v).
Proof. apply (vlanes_wide 8); [lia | reflexivity]. Qed.

Lemma vlanes32_words (v : Z) : vlanes 32 v = join 16 (vlanes 16 v).
Proof. apply (vlanes_wide 16); [lia | reflexivity]. Qed.

Lemma vlanes64_dwords (v : Z) : vlanes 64 v = join 32 (vlanes 32 v).
Proof. apply (vlanes_wide 32); [lia | reflexivity]. Qed.

Lemma trunc16_glue8 (lo hi : Z) : trunc 16 (glue 8 lo hi) = glue 8 lo hi.
Proof. apply trunc_small, (glue_range 8); lia. Qed.

Lemma trunc32_glue16 (lo hi : Z) : trunc 32 (glue 16 lo hi) = glue 16 lo hi.
Proof. apply trunc_small, (glue_range 16); lia. Qed.

Lemma trunc64_glue32 (lo hi : Z) : trunc 64 (glue 32 lo hi) = glue 32 lo hi.
Proof. apply trunc_small, (glue_range 32); lia. Qed.

Create Rewrite HintDb lane.
#[local] Hint Rewrite trunc_idem trunc_glue_lo trunc_glue_hi glue_div
  using lia : lane.
#[local] Hint Rewrite trunc16_glue8 trunc32_glue16 trunc64_glue32 : lane.

(** Name the lanes of a register value: sixteen bytes, eight words or four
    doublewords, each with its range. *)
Ltac open_lanes w A :=
  let L := fresh "L" in
  let Hlen := fresh "Hlen" in
  let Hr := fresh "Hr" in
  pose proof (vlanes_length w A) as Hlen;
  pose proof (vlanes_range w A ltac:(lia)) as Hr;
  generalize dependent (vlanes w A); intros L Hlen Hr;
  cbn in Hlen;
  repeat (destruct L as [|? L]; [discriminate Hlen|]);
  destruct L; [|discriminate Hlen]; clear Hlen;
  repeat match goal with
         | H : Forall _ (_ :: _) |- _ =>
             let H1 := fresh "R" in
             apply Forall_cons_iff in H; destruct H as [H1 H]
         | H : Forall _ [] |- _ => clear H
         end.

Ltac lists :=
  cbn [map interleave zip_with high_half low_half firstn skipn length
       Nat.div2 join split nth app fst snd].

(** Drop the wrap-around of lanes that are known to be in range. *)
Ltac in_range :=
  repeat match goal with
         | H : 0 <= ?a < 2 ^ ?w |- context [trunc ?w ?a] =>
             rewrite (trunc_small w a H)
         end.

Ltac lane_simpl := repeat (progress (autorewrite with lane; in_range)).

Ltac lanewise := apply pack_ext; repeat constructor.

(* ================================================================== *)
(** ** What the instruction sequences compute *)

Lemma vlanes_zero8 : vlanes 8 0 = [0;0;0;0;0;0;0;0;0;0;0;0;0;0;0;0].
Proof. reflexivity. Qed.

Lemma vlanes_zero16 : vlanes 16 0 = [0;0;0;0;0;0;0;0].
Proof. reflexivity. Qed.

Lemma vlanes_zero32 : vlanes 32 0 = [0;0;0;0].
Proof. reflexivity. Qed.

(** Replace the powers of two of concrete widths by their values. *)
Ltac pow2 :=
  repeat match goal with
         | |- context [2 ^ Z.pos ?n] =>
             let v := eval vm_compute in (2 ^ Z.pos n) in
             change (2 ^ Z.pos n) with v
         | H : context [2 ^ Z.pos ?n] |- _ =>
             let v := eval vm_compute in (2 ^ Z.pos n) in
             change (2 ^ Z.pos n) with v in H
         end.

(** Interleaving a byte with itself and shifting the word right by 8 with
    sign is sign extension. *)
Lemma sar_glue8 (a : Z) :
  0 <= a < 2 ^ 8 ->
  trunc 16 (signed 16 (glue 8 a a) / 2 ^ Z.min 8 (16 - 1)) =
  trunc 16 (signed 8 a).
Proof.
  intros H. f_equal. unfold signed, glue.
  rewrite (trunc_small 8 a H).
  change (2 ^ Z.min 8 (16 - 1)) with 256.
  rewrite (trunc_small 16 (a + 2 ^ 8 * a)) by (pow2; lia).
  unfold trunc. change (16 - 1) with 15. change (8 - 1) with 7. pow2.
  destruct (Z.ltb_spec (a + 256 * a) 32768), (Z.ltb_spec a 128); try lia;
    Z.div_mod_to_equations; lia.
Qed.

Lemma sar_glue16 (a : Z) :
  0 <= a < 2 ^ 16 ->
  trunc 32 (signed 32 (glue 16 a a) / 2 ^ Z.min 16 (32 - 1)) =
  trunc 32 (signed 16 a).
Proof.
  intros H. f_equal. unfold signed, glue.
  rewrite (trunc_small 16 a H).
  change (2 ^ Z.min 16 (32 - 1)) with 65536.
  rewrite (trunc_small 32 (a + 2 ^ 16 * a)) by (pow2; lia).
  unfold trunc. change (32 - 1) with 31. change (16 - 1) with 15. pow2.
  destruct (Z.ltb_spec (a + 65536 * a) 2147483648), (Z.ltb_spec a 32768);
    try lia; Z.div_mod_to_equations; lia.
Qed.

Lemma mul_lanes (w x y x' y' : Z) :
  0 <= w -> trunc w x = trunc w x' -> trunc w y = trunc w y' ->
  trunc w (x * y) = trunc w (x' * y').
Proof.
  intros Hw Hx Hy.
  rewrite <- (trunc_mul w x y), <- (trunc_mul w x' y') by assumption.
  rewrite Hx, Hy; reflexivity.
Qed.

(** The signed narrow high multiply: both sources unpacked against
    themselves, shifted right with sign, multiplied. *)
Lemma extmul_high_s_value (A B : Z) :
  pmull 16 (psra 16 (unpckh 8 A A) 8) (psra 16 (unpckh 8 B B) 8) =
  ref_extmul 8 false true A B.
Proof.
  unfold pmull, psra, unpckh, ref_extmul.
  open_lanes 8 A. open_lanes 8 B. lists.
  rewrite !vlanes16_pack8 by reflexivity. lists.
  rewrite !vlanes_pack by (try reflexivity; lia). lists.
  lanewise; rewrite trunc_mul by lia; in_range;
    (apply mul_lanes; [lia | apply sar_glue8; assumption ..]).
Qed.

Lemma pmull_comm (w a b : Z) : pmull w a b = pmull w b a.
Proof.
  unfold pmull. f_equal.
  generalize (vlanes w a) (vlanes w b).
  induction l as [|x l IH]; intros [|y l']; cbn; try reflexivity.
  rewrite IH, Z.mul_comm; reflexivity.
Qed.

(** The unsigned narrow high multiply: sources unpacked against zero. *)
Lemma extmul_high_u_value (A B : Z) :
  pmull 16 (unpckh 8 A 0) (unpckh 8 B 0) = ref_extmul 8 false false A B.
Proof.
  unfold pmull, unpckh, ref_extmul. rewrite vlanes_zero8.
  open_lanes 8 A. open_lanes 8 B. lists.
  rewrite !vlanes16_pack8 by reflexivity. lists.
  lanewise; unfold extend, glue; in_range;
    change (trunc 8 0) with 0; rewrite !Z.mul_0_r, !Z.add_0_r; reflexivity.
Qed.

(** The legacy form zero-extends its second source the other way round:
    zero below, the byte above, then a logical shift. *)
Lemma extmul_high_u_legacy_value (A B : Z) :
  pmull 16 (unpckh 8 A 0) (psrl 16 (unpckh 8 0 B) 8) =
  ref_extmul 8 false false A B.
Proof.
  unfold pmull, psrl, unpckh, ref_extmul. rewrite vlanes_zero8.
  open_lanes 8 A. open_lanes 8 B. lists.
  rewrite !vlanes16_pack8 by reflexivity. lists.
  rewrite !vlanes_pack by (try reflexivity; lia). lists.
  change (8 <? 16) with true. cbv iota.
  lanewise; unfold extend; rewrite !glue_div by lia; in_range;
    unfold glue; in_range; change (trunc 8 0) with 0;
    rewrite !Z.mul_0_r, !Z.add_0_r;
    (apply mul_lanes; [lia | reflexivity | apply trunc_idem; lia]).
Qed.

(** The legacy form with one register for both sources multiplies by the
    zeroed scratch register. *)
Lemma pmull16_zero (a : Z) : pmull 16 a 0 = 0.
Proof.
  unfold pmull. rewrite vlanes_zero16. open_lanes 16 a. lists.
  rewrite !Z.mul_0_r. reflexivity.
Qed.

(** *** High-half conversions *)

Lemma shufd_0xEE (a : Z) :
  shufd a 0xEE =
  pack 32 [nth 2 (vlanes 32 a) 0; nth 3 (vlanes 32 a) 0;
           nth 2 (vlanes 32 a) 0; nth 3 (vlanes 32 a) 0].
Proof. reflexivity. Qed.

(** Both legacy ways of fetching the high half put it in the low half of the
    destination. *)
Lemma movhl_low_half8 (x a : Z) :
  low_half (vlanes 8 (movhl x a)) = high_half (vlanes 8 a).
Proof.
  unfold movhl.
  rewrite (vlanes64_dwords a), (vlanes32_words a), (vlanes16_bytes a).
  open_lanes 8 a. lists. rewrite vlanes8_pack64 by reflexivity. lists.
  repeat f_equal; lane_simpl; reflexivity.
Qed.

Lemma movhl_low_half16 (x a : Z) :
  low_half (vlanes 16 (movhl x a)) = high_half (vlanes 16 a).
Proof.
  unfold movhl. rewrite (vlanes64_dwords a), (vlanes32_words a).
  open_lanes 16 a. lists. rewrite vlanes16_pack64 by reflexivity. lists.
  repeat f_equal; lane_simpl; reflexivity.
Qed.

Lemma movhl_low_half32 (x a : Z) :
  low_half (vlanes 32 (movhl x a)) = high_half (vlanes 32 a).
Proof.
  unfold movhl. rewrite (vlanes64_dwords a).
  open_lanes 32 a. lists. rewrite vlanes32_pack64 by reflexivity. lists.
  repeat f_equal; lane_simpl; reflexivity.
Qed.

Lemma shufd_low_half8 (a : Z) :
  low_half (vlanes 8 (shufd a 0xEE)) = high_half (vlanes 8 a).
Proof.
  rewrite shufd_0xEE, (vlanes32_words a), (vlanes16_bytes a).
  open_lanes 8 a. lists. rewrite vlanes8_pack32 by reflexivity. lists.
  repeat f_equal; lane_simpl; reflexivity.
Qed.

Lemma shufd_low_half16 (a : Z) :
  low_half (vlanes 16 (shufd a 0xEE)) = high_half (vlanes 16 a).
Proof.
  rewrite shufd_0xEE, (vlanes32_words a).
  open_lanes 16 a. lists. rewrite vlanes16_pack32 by reflexivity. lists.
  repeat f_equal; lane_simpl; reflexivity.
Qed.

Lemma shufd_low_half32 (a : Z) :
  low_half (vlanes 32 (shufd a 0xEE)) = high_half (vlanes 32 a).
Proof.
  rewrite shufd_0xEE.
  open_lanes 32 a. lists. rewrite vlanes_pack by (try reflexivity; lia). lists.
  repeat f_equal; lane_simpl; reflexivity.
Qed.

Lemma zero_extend_lanes (w : Z) (ls : list Z) :
  Forall (fun x => 0 <= x < 2 ^ w) ls -> map (extend false w) ls = ls.
Proof.
  induction 1 as [|x ls Hx _ IH]; cbn [map]; [reflexivity|].
  rewrite IH. unfold extend. rewrite trunc_small by assumption. reflexivity.
Qed.

Lemma high_half_range (w v : Z) :
  0 <= w -> Forall (fun x => 0 <= x < 2 ^ w) (high_half (vlanes w v)).
Proof.
  intros Hw. unfold high_half.
  generalize (Nat.div2 (length (vlanes w v))); intros n.
  pose proof (vlanes_range w v Hw) as H. revert n.
  induction H as [|x l Hx Hl IH]; intros [|n]; cbn [skipn];
    try constructor; auto.
Qed.

(** Widening the low half sign- or zero-extended, once the high half has
    been brought there, is the high-half conversion. *)
Lemma pmovsx_high (w x a : Z) :
  low_half (vlanes w x) = high_half (vlanes w a) ->
  pmovsx w x = ref_convert_high w true a.
Proof. intros H; unfold pmovsx, ref_convert_high; rewrite H; reflexivity. Qed.

Lemma pmovzx_high (w x a : Z) :
  0 <= w ->
  low_half (vlanes w x) = high_half (vlanes w a) ->
  pmovzx w x = ref_convert_high w false a.
Proof.
  intros Hw H; unfold pmovzx, ref_convert_high; rewrite H.
  rewrite zero_extend_lanes by (apply high_half_range; assumption).
  reflexivity.
Qed.

(** The extended form of the signed conversions. *)
Lemma sconvert8_avx_value (a : Z) :
  psra 16 (unpckh 8 a a) 8 = ref_convert_high 8 true a.
Proof.
  unfold psra, unpckh, ref_convert_high.
  open_lanes 8 a. lists. rewrite vlanes16_pack8 by reflexivity. lists.
  lanewise; unfold extend; apply sar_glue8; assumption.
Qed.

Lemma sconvert16_avx_value (a : Z) :
  psra 32 (unpckh 16 a a) 16 = ref_convert_high 16 true a.
Proof.
  unfold psra, unpckh, ref_convert_high.
  open_lanes 16 a. lists. rewrite vlanes32_pack16 by reflexivity. lists.
  lanewise; unfold extend; apply sar_glue16; assumption.
Qed.

Lemma sconvert32_avx_value (a : Z) :
  pmovsx 32 (unpckh 64 a a) = ref_convert_high 32 true a.
Proof.
  apply pmovsx_high. unfold unpckh. rewrite (vlanes64_dwords a).
  open_lanes 32 a. lists. rewrite vlanes32_pack64 by reflexivity. lists.
  repeat f_equal; lane_simpl; reflexivity.
Qed.

(** Interleaving the high half with zero is zero extension. *)
Lemma uconvert8_value (a : Z) : unpckh 8 a 0 = ref_convert_high 8 false a.
Proof.
  unfold unpckh, ref_convert_high. rewrite vlanes_zero8.
  open_lanes 8 a. lists.
  change (2 * 8) with (8 + 8). rewrite (pack_split 8) by lia. lists.
  lanewise; unfold extend; in_range; lane_simpl;
    rewrite ?Z.div_small by assumption; reflexivity.
Qed.

Lemma uconvert16_value (a : Z) : unpckh 16 a 0 = ref_convert_high 16 false a.
Proof.
  unfold unpckh, ref_convert_high. rewrite vlanes_zero16.
  open_lanes 16 a. lists.
  change (2 * 16) with (16 + 16). rewrite (pack_split 16) by lia. lists.
  lanewise; unfold extend; in_range; lane_simpl;
    rewrite ?Z.div_small by assumption; reflexivity.
Qed.

Lemma uconvert32_value (a : Z) : unpckh 32 a 0 = ref_convert_high 32 false a.
Proof.
  unfold unpckh, ref_convert_high. rewrite vlanes_zero32.
  open_lanes 32 a. lists.
  change (2 * 32) with (32 + 32). rewrite (pack_split 32) by lia. lists.
  lanewise; unfold extend; in_range; lane_simpl;
    rewrite ?Z.div_small by assumption; reflexivity.
Qed.

(** *** The 16-to-32-bit extended multiply *)

(** The low and the high words of the products, interleaved, are the 32-bit
    products. *)
Lemma extmul32_value (low is_signed : bool) (a b : Z) :
  (if low then unpckl 16 else unpckh 16)
    (pmull 16 a b)
    ((if is_signed then pmulh 16 else pmulhu 16) a b) =
  ref_extmul 16 low is_signed a b.
Proof.
  unfold ref_extmul. change (2 * 16) with (16 + 16).
  rewrite (pack_split 16) by lia.
  destruct low, is_signed; unfold unpckl, unpckh, pmull, pmulh, pmulhu;
    open_lanes 16 a; open_lanes 16 b; lists;
    rewrite !vlanes_pack by (try reflexivity; lia); lists;
    lanewise; unfold extend; lane_simpl;
    try reflexivity;
    (apply mul_lanes; [lia | symmetry; apply trunc_signed; lia ..]).
Qed.

(** *** The 32-to-64-bit extended multiply *)

Lemma unpckl32_self (a : Z) : unpckl 32 a a = dup_half true a.
Proof. unfold unpckl, dup_half. open_lanes 32 a. reflexivity. Qed.

Lemma unpckh32_self (a : Z) : unpckh 32 a a = dup_half false a.
Proof. unfold unpckh, dup_half. open_lanes 32 a. reflexivity. Qed.

Lemma shufd_0x50 (a : Z) : shufd a 0x50 = dup_half true a.
Proof. reflexivity. Qed.

Lemma shufd_0xFA (a : Z) : shufd a 0xFA = dup_half false a.
Proof. reflexivity. Qed.

Lemma muldq_comm (is_signed : bool) (a b : Z) :
  muldq is_signed a b = muldq is_signed b a.
Proof.
  unfold muldq; cbv zeta.
  rewrite (Z.mul_comm (extend is_signed 32 (nth 0 (vlanes 32 a) 0))).
  rewrite (Z.mul_comm (extend is_signed 32 (nth 2 (vlanes 32 a) 0))).
  reflexivity.
Qed.

(** Multiplying doublewords 0 and 2 of the two patterns gives the 64-bit
    products of the chosen halves. *)
Lemma extmul64_value (low is_signed : bool) (a b : Z) :
  muldq is_signed (dup_half low a) (dup_half low b) =
  ref_extmul 32 low is_signed a b.
Proof.
  unfold muldq, dup_half, ref_extmul; cbv zeta.
  destruct low; open_lanes 32 a; open_lanes 32 b; lists;
    rewrite !vlanes_pack by (try reflexivity; lia); lists;
    lanewise; in_range; reflexivity.
Qed.

(** The reference multiplications do not depend on the order of the
    sources. *)
Lemma zip_with_comm (f : Z -> Z -> Z) (xs ys : list Z) :
  (forall x y, f x y = f y x) -> zip_with f xs ys = zip_with f ys xs.
Proof.
  intros Hf; revert ys; induction xs as [|x xs IH]; intros [|y ys]; cbn;
    try reflexivity.
  rewrite Hf, IH; reflexivity.
Qed.

Lemma ref_extmul_comm (w : Z) (low is_signed : bool) (a b : Z) :
  ref_extmul w low is_signed a b = ref_extmul w low is_signed b a.
Proof.
  unfold ref_extmul; cbv zeta. f_equal.
  apply zip_with_comm; intros; apply Z.mul_comm.
Qed.

(* ================================================================== *)
(** ** Running the emitted sequences *)

Lemma upd_other (r r' : XMMRegister) (v : Z) (s : RegFile) :
  r' <> r -> upd r v s r' = s r'.
Proof. intros H; unfold upd; apply Nat.eqb_neq in H; rewrite H; reflexivity. Qed.

(** Settle the comparisons of register handles from what is known about
    them, splitting on those that are still open. *)
Ltac decide_regs :=
  repeat first
    [ rewrite Nat.eqb_refl
    | match goal with
      | H : ?a <> ?b |- context [?a == ?b] =>
          rewrite (proj2 (Nat.eqb_neq a b) H)
      | H : ?a <> ?b |- context [?b == ?a] =>
          rewrite (proj2 (Nat.eqb_neq b a) (not_eq_sym H))
      end ];
  cbn [negb andb orb].

Ltac split_regs :=
  repeat (decide_regs;
          match goal with
          | |- context [Nat.eqb ?a ?b] =>
              destruct (Nat.eq_dec a b); [subst|]
          end);
  decide_regs; try congruence.

(** Unfold an emitting routine down to its instructions, run them and read
    the registers. *)
Ltac emitted :=
  cbv [result run assemble seq emit when nop CpuFeatureScope DCHECK_EQ];
  split_regs; rewrite ?Bool.andb_false_r, ?Bool.andb_true_r; cbv beta iota;
  cbn [app exec]; unfold step; cbn [effect fst snd]; unfold upd;
  split_regs; rewrite ?Z.lxor_nilpotent.


Section Routines.

Variable cpu : CpuFeature -> bool.
Variable s : RegFile.

(** *** [I16x8ExtMulHighS] *)

Lemma I16x8ExtMulHighS_avx (dst src1 src2 scratch : XMMRegister) :
  cpu AVX = true -> scratch <> dst -> scratch <> src2 ->
  result (I16x8ExtMulHighS cpu dst src1 src2 scratch) s dst =
  Some (ref_extmul 8 false true (s src1) (s src2)).
Proof.
  intros Hc H1 H2. unfold I16x8ExtMulHighS. rewrite Hc. emitted.
  all: rewrite pmull_comm, extmul_high_s_value; reflexivity.
Qed.

Lemma I16x8ExtMulHighS_legacy (dst src1 src2 scratch : XMMRegister) :
  cpu AVX = false -> scratch <> dst -> scratch <> src2 ->
  dst = src1 \/ dst <> src2 ->
  result (I16x8ExtMulHighS cpu dst src1 src2 scratch) s dst =
  Some (ref_extmul 8 false true (s src1) (s src2)).
Proof.
  intros Hc H1 H2 H3. unfold I16x8ExtMulHighS. rewrite Hc. emitted.
  all: try (rewrite extmul_high_s_value; reflexivity).
  all: destruct H3; congruence.
Qed.

(** With the destination on the second source only, the legacy form squares
    the first source. *)
Lemma I16x8ExtMulHighS_legacy_overwrite
    (dst src1 src2 scratch : XMMRegister) :
  cpu AVX = false -> scratch <> dst -> dst <> src1 -> dst = src2 ->
  result (I16x8ExtMulHighS cpu dst src1 src2 scratch) s dst =
  Some (ref_extmul 8 false true (s src1) (s src1)).
Proof.
  intros Hc H1 H2 H3. unfold I16x8ExtMulHighS. rewrite Hc. emitted.
  all: rewrite extmul_high_s_value; reflexivity.
Qed.

(** *** [I16x8ExtMulHighU] *)

Lemma I16x8ExtMulHighU_avx (dst src1 src2 scratch : XMMRegister) :
  cpu AVX = true ->
  scratch <> dst -> scratch <> src1 -> scratch <> src2 ->
  result (I16x8ExtMulHighU cpu dst src1 src2 scratch) s dst =
  Some (ref_extmul 8 false false (s src1) (s src2)).
Proof.
  intros Hc H1 H2 H3. unfold I16x8ExtMulHighU. rewrite Hc. emitted.
  all: rewrite ?(pmull_comm 16 (unpckh 8 (s src2) 0));
    rewrite extmul_high_u_value; reflexivity.
Qed.

Lemma I16x8ExtMulHighU_legacy (dst src1 src2 scratch : XMMRegister) :
  cpu AVX = false ->
  scratch <> dst -> scratch <> src1 -> scratch <> src2 ->
  src1 <> src2 ->
  result (I16x8ExtMulHighU cpu dst src1 src2 scratch) s dst =
  Some (ref_extmul 8 false false (s src1) (s src2)).
Proof.
  intros Hc H1 H2 H3 H4. unfold I16x8ExtMulHighU. rewrite Hc. emitted.
  all: rewrite extmul_high_u_legacy_value;
    first [reflexivity | rewrite ref_extmul_comm; reflexivity].
Qed.

(** With one register for both sources the legacy form leaves zero,
    whatever the register holds. *)
Lemma I16x8ExtMulHighU_legacy_self (dst src scratch : XMMRegister) :
  cpu AVX = false -> scratch <> dst -> scratch <> src ->
  result (I16x8ExtMulHighU cpu dst src src scratch) s dst = Some 0.
Proof.
  intros Hc H1 H2. unfold I16x8ExtMulHighU. rewrite Hc. emitted.
  all: rewrite pmull16_zero; reflexivity.
Qed.

(** *** The conversions *)

Lemma I16x8SConvertI8x16High_ok (dst src : XMMRegister) :
  result (I16x8SConvertI8x16High cpu dst src) s dst =
  Some (ref_convert_high 8 true (s src)).
Proof.
  unfold I16x8SConvertI8x16High. destruct (cpu AVX); emitted.
  all: lazymatch goal with
       | |- context [pmovsx 8 (movhl ?x ?a)] =>
           rewrite (pmovsx_high 8 (movhl x a) a (movhl_low_half8 x a))
       | |- context [pmovsx 8 (shufd ?a 238)] =>
           rewrite (pmovsx_high 8 (shufd a 238) a (shufd_low_half8 a))
       | |- _ => rewrite sconvert8_avx_value
       end; reflexivity.
Qed.

Lemma I16x8UConvertI8x16High_ok (dst src scratch : XMMRegister) :
  scratch <> dst -> scratch <> src ->
  result (I16x8UConvertI8x16High cpu dst src scratch) s dst =
  Some (ref_convert_high 8 false (s src)).
Proof.
  intros H1 H2. unfold I16x8UConvertI8x16High. destruct (cpu AVX); emitted.
  all: lazymatch goal with
       | |- context [pmovzx 8 (shufd ?a 238)] =>
           rewrite (pmovzx_high 8 (shufd a 238) a ltac:(lia)
                      (shufd_low_half8 a))
       | |- _ => rewrite uconvert8_value
       end; reflexivity.
Qed.

Lemma I32x4SConvertI16x8High_ok (dst src : XMMRegister) :
  result (I32x4SConvertI16x8High cpu dst src) s dst =
  Some (ref_convert_high 16 true (s src)).
Proof.
  unfold I32x4SConvertI16x8High. destruct (cpu AVX); emitted.
  all: lazymatch goal with
       | |- context [pmovsx 16 (movhl ?x ?a)] =>
           rewrite (pmovsx_high 16 (movhl x a) a (movhl_low_half16 x a))
       | |- context [pmovsx 16 (shufd ?a 238)] =>
           rewrite (pmovsx_high 16 (shufd a 238) a (shufd_low_half16 a))
       | |- _ => rewrite sconvert16_avx_value
       end; reflexivity.
Qed.

Lemma I32x4UConvertI16x8High_ok (dst src scratch : XMMRegister) :
  scratch <> dst -> scratch <> src ->
  result (I32x4UConvertI16x8High cpu dst src scratch) s dst =
  Some (ref_convert_high 16 false (s src)).
Proof.
  intros H1 H2. unfold I32x4UConvertI16x8High. destruct (cpu AVX); emitted.
  all: lazymatch goal with
       | |- context [pmovzx 16 (shufd ?a 238)] =>
           rewrite (pmovzx_high 16 (shufd a 238) a ltac:(lia)
                      (shufd_low_half16 a))
       | |- _ => rewrite uconvert16_value
       end; reflexivity.
Qed.

Lemma I64x2SConvertI32x4High_ok (dst src : XMMRegister) :
  result (I64x2SConvertI32x4High cpu dst src) s dst =
  Some (ref_convert_high 32 true (s src)).
Proof.
  unfold I64x2SConvertI32x4High. destruct (cpu AVX); emitted.
  all: lazymatch goal with
       | |- context [pmovsx 32 (movhl ?x ?a)] =>
           rewrite (pmovsx_high 32 (movhl x a) a (movhl_low_half32 x a))
       | |- context [pmovsx 32 (shufd ?a 238)] =>
           rewrite (pmovsx_high 32 (shufd a 238) a (shufd_low_half32 a))
       | |- _ => rewrite sconvert32_avx_value
       end; reflexivity.
Qed.

Lemma I64x2UConvertI32x4High_ok (dst src scratch : XMMRegister) :
  scratch <> dst -> scratch <> src ->
  result (I64x2UConvertI32x4High cpu dst src scratch) s dst =
  Some (ref_convert_high 32 false (s src)).
Proof.
  intros H1 H2. unfold I64x2UConvertI32x4High. destruct (cpu AVX); emitted.
  all: rewrite uconvert32_value; reflexivity.
Qed.


(** *** [I32x4ExtMul] *)

Lemma I32x4ExtMul_avx (dbg : bool) (dst src1 src2 scratch : XMMRegister)
    (low is_signed : bool) :
  cpu AVX = true ->
  scratch <> dst -> scratch <> src1 -> scratch <> src2 ->
  result (I32x4ExtMul cpu dbg dst src1 src2 scratch low is_signed) s dst =
  Some (ref_extmul 16 low is_signed (s src1) (s src2)).
Proof.
  intros Hc H1 H2 H3. unfold I32x4ExtMul. rewrite Hc.
  rewrite <- extmul32_value.
  destruct low, is_signed; emitted; reflexivity.
Qed.

Lemma I32x4ExtMul_legacy (dbg : bool) (dst src2 scratch : XMMRegister)
    (low is_signed : bool) :
  cpu AVX = false ->
  scratch <> dst -> scratch <> src2 -> src2 <> dst ->
  result (I32x4ExtMul cpu dbg dst dst src2 scratch low is_signed) s dst =
  Some (ref_extmul 16 low is_signed (s dst) (s src2)).
Proof.
  intros Hc H1 H2 H3. unfold I32x4ExtMul. rewrite Hc.
  rewrite <- extmul32_value.
  destruct low, is_signed; emitted; reflexivity.
Qed.

(** In a debug build the legacy form refuses a destination that is not the
    first source. *)
Lemma I32x4ExtMul_dcheck (dst src1 src2 scratch : XMMRegister)
    (low is_signed : bool) :
  cpu AVX = false -> dst <> src1 ->
  assemble (I32x4ExtMul cpu true dst src1 src2 scratch low is_signed) =
  DcheckFailure.
Proof.
  intros Hc H. unfold I32x4ExtMul. rewrite Hc.
  cbv [assemble seq DCHECK_EQ]. decide_regs. reflexivity.
Qed.

(** In a release build it emits the same four instructions and multiplies
    whatever the destination holds: nothing copies the first source
    there. *)
Lemma I32x4ExtMul_release (dst src1 src2 scratch : XMMRegister)
    (low is_signed : bool) :
  cpu AVX = false ->
  scratch <> dst -> scratch <> src1 -> scratch <> src2 -> src2 <> dst ->
  result (I32x4ExtMul cpu false dst src1 src2 scratch low is_signed) s dst =
  Some ((if low then unpckl 16 else unpckh 16)
          (pmull 16 (s dst) (s src2))
          ((if is_signed then pmulh 16 else pmulhu 16) (s src1) (s src2))).
Proof.
  intros Hc H1 H2 H3 H4. unfold I32x4ExtMul. rewrite Hc.
  destruct low, is_signed; emitted; reflexivity.
Qed.

(** *** [I64x2ExtMul] *)

Lemma I64x2ExtMul_ok (dst src1 src2 scratch : XMMRegister)
    (low is_signed : bool) :
  scratch <> dst -> scratch <> src2 ->
  result (I64x2ExtMul cpu dst src1 src2 scratch low is_signed) s dst =
  Some (ref_extmul 32 low is_signed (s src1) (s src2)).
Proof.
  intros H1 H2. unfold I64x2ExtMul. rewrite <- extmul64_value.
  destruct (cpu AVX), low, is_signed; emitted;
    rewrite ?unpckl32_self, ?unpckh32_self;
    rewrite ?shufd_0x50, ?shufd_0xFA;
    first [reflexivity | rewrite muldq_comm; reflexivity].
Qed.

End Routines.

(* ================================================================== *)
(** ** Properties of every call *)

Lemma effect_target (i : Instr) (s : RegFile) : fst (effect i s) = target i.
Proof. destruct i; reflexivity. Qed.

(** A register that no instruction of [p] writes keeps its value. *)
Lemma exec_frame (p : list Instr) (s : RegFile) (r : XMMRegister) :
  Forall (fun i => target i <> r) p -> exec p s r = s r.
Proof.
  intros H; revert s; induction H as [|i p Hi _ IH]; intros s; cbn [exec].
  - reflexivity.
  - rewrite IH. unfold step. rewrite effect_target.
    apply upd_other; congruence.
Qed.

Ltac bools :=
  repeat match goal with
         | H : _ && _ = true |- _ => apply Bool.andb_true_iff in H; destruct H
         | H : _ || _ = false |- _ => apply Bool.orb_false_iff in H; destruct H
         | H : negb _ = true |- _ => apply Bool.negb_true_iff in H
         | H : negb _ = false |- _ => apply Bool.negb_false_iff in H
         | H : (_ == _) = true |- _ => apply Nat.eqb_eq in H
         | H : (_ == _) = false |- _ => apply Nat.eqb_neq in H
         | H : true = true |- _ => clear H
         | H : false = true |- _ => discriminate H
         | H : true = false |- _ => discriminate H
         end.

(** Unless a debug check stops it, a call emits code. *)
Lemma call_emits (cpu : CpuFeature -> bool) (dbg : bool) (op : Operation) :
  dcheck_passes cpu dbg op = true ->
  exists p, assemble (call cpu dbg op) = Code p.
Proof.
  unfold dcheck_passes, legacy_precondition.
  destruct op; cbn [call]; intros H;
    cbv [I16x8ExtMulHighS I16x8ExtMulHighU I16x8SConvertI8x16High
         I16x8UConvertI8x16High I32x4ExtMul I32x4SConvertI16x8High
         I32x4UConvertI16x8High I64x2ExtMul I64x2SConvertI32x4High
         I64x2UConvertI32x4High
         assemble seq emit when nop CpuFeatureScope DCHECK_EQ];
    destruct (cpu AVX); try destruct low; try destruct is_signed;
    try destruct dbg; cbn [negb orb andb] in *; bools;
    split_regs; eexists; reflexivity.
Qed.

(** Every instruction a call emits writes the destination or the scratch
    register. *)
Lemma call_targets (cpu : CpuFeature -> bool) (dbg : bool) (op : Operation)
    (p : list Instr) :
  assemble (call cpu dbg op) = Code p ->
  Forall (fun i => In (target i) (op_written op)) p.
Proof.
  destruct op; cbn [call op_written op_dst op_scratch];
    cbv [I16x8ExtMulHighS I16x8ExtMulHighU I16x8SConvertI8x16High
         I16x8UConvertI8x16High I32x4ExtMul I32x4SConvertI16x8High
         I32x4UConvertI16x8High I64x2ExtMul I64x2SConvertI32x4High
         I64x2UConvertI32x4High
         assemble seq emit when nop CpuFeatureScope DCHECK_EQ];
    destruct (cpu AVX); try destruct low; try destruct is_signed;
    try destruct dbg; cbn [negb orb andb];
    split_regs; cbn [app]; intros H; try discriminate H;
    injection H as <-;
    repeat first [apply Forall_nil | apply Forall_cons]; cbn; auto.
Qed.

(** Two runs of a call that differ in the scratch register only leave the
    same value in the destination. *)
Lemma result_agree (cpu : CpuFeature -> bool) (dbg : bool) (op : Operation)
    (t : XMMRegister) (s1 s2 : RegFile) :
  op_scratch op = Some t -> scratch_distinct op = true ->
  (forall r, r <> t -> s1 r = s2 r) ->
  result (call cpu dbg op) s1 (op_dst op) =
  result (call cpu dbg op) s2 (op_dst op).
Proof.
  unfold scratch_distinct.
  destruct op; cbn [call op_dst op_scratch op_sources forallb];
    intros Ht Hd Hs; try discriminate Ht; injection Ht as ->; bools;
    cbv [I16x8ExtMulHighS I16x8ExtMulHighU I16x8UConvertI8x16High
         I32x4ExtMul I32x4UConvertI16x8High I64x2ExtMul
         I64x2UConvertI32x4High];
    destruct (cpu AVX); try destruct low; try destruct is_signed;
    try destruct dbg; emitted;
    repeat match goal with
           | |- context [s1 ?r] => rewrite (Hs r) by congruence
           end;
    reflexivity.
Qed.

(* ================================================================== *)
(** ** The claims of the specification *)

(** C1, as stated, fails on the legacy form of [I32x4ExtMul] with a
    destination distinct from both sources: in a release build the sequence
    multiplies what the destination held (here zero) instead of the first
    source, and leaves 0 where the reference has the products 15. *)
Lemma I32x4ExtMul_legacy_distinct_dst_misses_reference :
  result (call without_avx false
            (Op_I32x4ExtMul xmm0 xmm1 xmm2 xmm3 true false))
    zero_threes_fives xmm0 = Some 0 /\
  reference (Op_I32x4ExtMul xmm0 xmm1 xmm2 xmm3 true false)
    zero_threes_fives = pack 32 [15; 15; 15; 15] /\
  result (call without_avx false
            (Op_I32x4ExtMul xmm0 xmm1 xmm2 xmm3 true false))
    zero_threes_fives xmm0 <>
  Some (reference (Op_I32x4ExtMul xmm0 xmm1 xmm2 xmm3 true false)
          zero_threes_fives).
Proof.
  split; [vm_compute; reflexivity|].
  split; [vm_compute; reflexivity|].
  vm_compute. intros H; discriminate H.
Qed.

(** C1 (amended): in both feature settings and every aliasing of
    destination and sources, with the scratch handle distinct from them,
    every extended multiplication and every high-half conversion leaves in
    the destination the value of the scalar reference, where the legacy form
    of [I32x4ExtMul] is called as its assertion demands, destination equal to
    source 1; the three legacy configurations of [legacy_defect] are left
    out. *)
Theorem emitted_code_matches_reference (cpu : CpuFeature -> bool)
    (dbg : bool) (op : Operation) (s : RegFile) :
  scratch_distinct op = true ->
  legacy_precondition cpu op = true ->
  legacy_defect cpu op = false ->
  result (call cpu dbg op) s (op_dst op) = Some (reference op s).
Proof.
  unfold scratch_distinct, legacy_precondition, legacy_defect.
  destruct op; cbn [call op_dst op_scratch op_sources forallb reference];
    intros Hd Hp Hl; destruct (cpu AVX) eqn:Hc;
    cbn [negb andb orb] in Hp, Hl; bools.
  - apply I16x8ExtMulHighS_avx; assumption.
  - apply I16x8ExtMulHighS_legacy; try assumption.
    apply Bool.andb_false_iff in Hl. destruct Hl; bools; auto.
  - apply I16x8ExtMulHighU_avx; assumption.
  - apply I16x8ExtMulHighU_legacy; assumption.
  - apply I16x8SConvertI8x16High_ok.
  - apply I16x8SConvertI8x16High_ok.
  - apply I16x8UConvertI8x16High_ok; assumption.
  - apply I16x8UConvertI8x16High_ok; assumption.
  - apply I32x4ExtMul_avx; assumption.
  - subst. apply I32x4ExtMul_legacy; auto.
  - apply I32x4SConvertI16x8High_ok.
  - apply I32x4SConvertI16x8High_ok.
  - apply I32x4UConvertI16x8High_ok; assumption.
  - apply I32x4UConvertI16x8High_ok; assumption.
  - apply I64x2ExtMul_ok; assumption.
  - apply I64x2ExtMul_ok; assumption.
  - apply I64x2SConvertI32x4High_ok.
  - apply I64x2SConvertI32x4High_ok.
  - apply I64x2UConvertI32x4High_ok; assumption.
  - apply I64x2UConvertI32x4High_ok; assumption.
Qed.

Lemma emitted_code_matches_reference_witness :
  result (call without_avx true (Op_I32x4ExtMul xmm0 xmm0 xmm1 xmm2 false true))
    all_1_to_16 xmm0 =
  Some (reference (Op_I32x4ExtMul xmm0 xmm0 xmm1 xmm2 false true) all_1_to_16).
Proof.
  apply (emitted_code_matches_reference without_avx true
           (Op_I32x4ExtMul xmm0 xmm0 xmm1 xmm2 false true) all_1_to_16);
    reflexivity.
Defined.

(** C2 (the code departs from it): for [I16x8ExtMulHighU] called with one
    register for destination and both sources, all bytes 1 to 16, the legacy
    form leaves zero in the destination and the extended form the squares of
    9 to 16. *)
Theorem I16x8ExtMulHighU_legacy_differs_from_avx :
  result (call without_avx false (Op_I16x8ExtMulHighU xmm0 xmm0 xmm0 xmm1))
    all_1_to_16 xmm0 = Some 0 /\
  result (call with_avx false (Op_I16x8ExtMulHighU xmm0 xmm0 xmm0 xmm1))
    all_1_to_16 xmm0 = Some squares_9_to_16.
Proof. split; vm_compute; reflexivity. Qed.

(** C3 (the code departs from it): without AVX, [I16x8ExtMulHighU] with the
    same handle for both sources leaves zero, and with two handles that hold
    the same bytes 1 to 16 it leaves the squares of 9 to 16. *)
Theorem I16x8ExtMulHighU_self_alias_differs_from_two_handles :
  all_1_to_16 xmm1 = all_1_to_16 xmm3 /\
  result (I16x8ExtMulHighU without_avx xmm0 xmm1 xmm1 xmm2)
    all_1_to_16 xmm0 = Some 0 /\
  result (I16x8ExtMulHighU without_avx xmm0 xmm1 xmm3 xmm2)
    all_1_to_16 xmm0 = Some squares_9_to_16.
Proof. repeat split; vm_compute; reflexivity. Qed.

(** C4: with AVX, [I16x8ExtMulHighS] on two sources that both hold the bytes
    1 to 16 leaves the words 81, 100, 121, 144, 169, 196, 225, 256 in the
    destination, the squares of the sign-extended bytes 9 to 16. *)
Theorem I16x8ExtMulHighS_avx_squares_9_to_16 (cpu : CpuFeature -> bool)
    (dst src1 src2 scratch : XMMRegister) (s : RegFile) :
  cpu AVX = true -> scratch <> dst -> scratch <> src2 ->
  s src1 = bytes_1_to_16 -> s src2 = bytes_1_to_16 ->
  result (I16x8ExtMulHighS cpu dst src1 src2 scratch) s dst =
    Some (pack 16 [81; 100; 121; 144; 169; 196; 225; 256]) /\
  [81; 100; 121; 144; 169; 196; 225; 256] =
    map (fun b => signed 8 b * signed 8 b) [9; 10; 11; 12; 13; 14; 15; 16].
Proof.
  intros Hc H1 H2 E1 E2. split; [|reflexivity].
  rewrite I16x8ExtMulHighS_avx by assumption. rewrite E1, E2.
  vm_compute; reflexivity.
Qed.

Lemma I16x8ExtMulHighS_avx_squares_9_to_16_witness :
  result (I16x8ExtMulHighS with_avx xmm0 xmm1 xmm1 xmm2) all_1_to_16 xmm0 =
    Some (pack 16 [81; 100; 121; 144; 169; 196; 225; 256]) /\
  [81; 100; 121; 144; 169; 196; 225; 256] =
    map (fun b => signed 8 b * signed 8 b) [9; 10; 11; 12; 13; 14; 15; 16].
Proof.
  apply (I16x8ExtMulHighS_avx_squares_9_to_16 with_avx xmm0 xmm1 xmm1 xmm2
           all_1_to_16);
    first [reflexivity | discriminate].
Defined.

(** C5 (the code departs from it): the legacy form of [I32x4ExtMul] called
    in a debug build with the destination equal to source 1, as the
    assertion demands, but also to source 2: the assertion passes, the four
    instructions are emitted, and on words 256 they leave 0 where the
    reference has the products 65536. *)
Theorem I32x4ExtMul_legacy_self_multiply_misses_reference :
  assemble (I32x4ExtMul without_avx true xmm0 xmm0 xmm0 xmm1 true false) =
    Code [movaps xmm1 xmm0; pmullw xmm0 xmm0; pmulhuw xmm1 xmm0;
          punpcklwd xmm0 xmm1] /\
  result (I32x4ExtMul without_avx true xmm0 xmm0 xmm0 xmm1 true false)
    all_256 xmm0 = Some 0 /\
  reference (Op_I32x4ExtMul xmm0 xmm0 xmm0 xmm1 true false) all_256 =
    pack 32 [65536; 65536; 65536; 65536].
Proof. repeat split; vm_compute; reflexivity. Qed.

(** C6 (the code departs from it): without AVX, with the destination on one
    of the sources, exchanging the two sources of [I16x8ExtMulHighS] changes
    the result: on bytes 2 in xmm0 and bytes 3 in xmm1 the call with sources
    (xmm1, xmm0) leaves the words 9, the call with sources (xmm0, xmm1) the
    words 6. *)
Theorem I16x8ExtMulHighS_legacy_swap_changes_result :
  result (call without_avx false (Op_I16x8ExtMulHighS xmm0 xmm1 xmm0 xmm2))
    twos_and_threes xmm0 = Some (pack 16 (repeat 9 8)) /\
  result (call without_avx false (Op_I16x8ExtMulHighS xmm0 xmm0 xmm1 xmm2))
    twos_and_threes xmm0 = Some (pack 16 (repeat 6 8)).
Proof. split; vm_compute; reflexivity. Qed.

(** C7, as stated, fails on the legacy form: there the low words of the
    products are in the destination and the high words in the scratch
    register before the interleave.  On words 256 the low words are 0 and
    the high words 1, and the scratch register does not hold the low
    words. *)
Lemma I32x4ExtMul_legacy_low_words_not_in_scratch :
  ~ (exists p,
       assemble (I32x4ExtMul without_avx true xmm0 xmm0 xmm1 xmm2 true true) =
         Code p /\
       multiplies_then_interleaves p all_256 xmm0 xmm1 true true
         xmm2 xmm0 xmm0).
Proof.
  intros (p & Hp & body & last & Hsplit & Hlo & _).
  vm_compute in Hp. injection Hp as <-.
  change [movaps 2 0; pmullw 0 1; pmulhw 2 1; punpcklwd 0 2]%nat
    with ([movaps 2 0; pmullw 0 1; pmulhw 2 1] ++ [punpcklwd 0 2])%nat
    in Hsplit.
  apply app_inj_tail in Hsplit. destruct Hsplit as [<- _].
  vm_compute in Hlo. discriminate Hlo.
Qed.

(** C7 (amended): [I32x4ExtMul] ends with the interleave of the low words
    and the high words (signed or unsigned by [is_signed]) of the products
    into the destination, low or high halves by [low].  With AVX the low
    words are multiplied into the scratch register and the high words into
    the destination; without AVX, called with the destination equal to
    source 1 and source 2 another register, the low words are multiplied
    into the destination and the high words into the scratch register. *)
Theorem I32x4ExtMul_steps (cpu : CpuFeature -> bool) (dbg : bool)
    (dst src1 src2 scratch : XMMRegister) (low is_signed : bool)
    (s : RegFile) :
  scratch_distinct
    (Op_I32x4ExtMul dst src1 src2 scratch low is_signed) = true ->
  legacy_precondition cpu
    (Op_I32x4ExtMul dst src1 src2 scratch low is_signed) = true ->
  legacy_defect cpu
    (Op_I32x4ExtMul dst src1 src2 scratch low is_signed) = false ->
  exists p,
    assemble (I32x4ExtMul cpu dbg dst src1 src2 scratch low is_signed) =
      Code p /\
    multiplies_then_interleaves p s src1 src2 low is_signed
      (low_words_register cpu dst scratch)
      (high_words_register cpu dst scratch) dst.
Proof.
  unfold scratch_distinct, legacy_precondition, legacy_defect,
    low_words_register, high_words_register, multiplies_then_interleaves.
  cbn [op_dst op_scratch op_sources forallb].
  intros Hd Hp Hl. unfold I32x4ExtMul.
  destruct (cpu AVX); cbn [negb andb orb] in Hp, Hl; bools; subst.
  - destruct low, is_signed;
      cbv [assemble seq emit nop CpuFeatureScope]; cbn [app];
      eexists; (split; [reflexivity|]);
      eexists [_; _], _; (split; [reflexivity|]);
      cbn [exec]; unfold step; cbn [effect fst snd]; unfold upd;
      split_regs; repeat split.
  - destruct low, is_signed;
      cbv [assemble seq emit nop DCHECK_EQ]; decide_regs;
      rewrite Bool.andb_false_r; cbn [app];
      eexists; (split; [reflexivity|]);
      eexists [_; _; _], _; (split; [reflexivity|]);
      cbn [exec]; unfold step; cbn [effect fst snd]; unfold upd;
      split_regs; repeat split.
Qed.

Lemma I32x4ExtMul_steps_witness :
  exists p,
    assemble (I32x4ExtMul without_avx true xmm0 xmm0 xmm1 xmm2 true true) =
      Code p /\
    multiplies_then_interleaves p all_256 xmm0 xmm1 true true
      xmm0 xmm2 xmm0.
Proof.
  apply (I32x4ExtMul_steps without_avx true xmm0 xmm0 xmm1 xmm2 true true
           all_256); reflexivity.
Defined.

(** C8, as stated, fails: the shuffles do not duplicate the even (or the
    odd) doublewords of a source.  On the doublewords 1, 2, 3, 4 with the
    low flag set the scratch register receives 1, 1, 2, 2, the two
    doublewords of the low half, not 1, 1, 3, 3. *)
Lemma I64x2ExtMul_does_not_duplicate_even_lanes :
  ~ (exists p,
       assemble (I64x2ExtMul without_avx xmm0 xmm1 xmm2 xmm3 true false) =
         Code p /\
       shuffles_then_multiplies dup_even_odd p all_1234
         xmm0 xmm1 xmm2 xmm3 true false).
Proof.
  intros (p & Hp & body & last & Hsplit & _ & Hscratch & _).
  vm_compute in Hp. injection Hp as <-.
  change [pshufd 3 1 80; pshufd 0 2 80; pmuludq 0 3]%nat
    with ([pshufd 3 1 80; pshufd 0 2 80] ++ [pmuludq 0 3])%nat in Hsplit.
  apply app_inj_tail in Hsplit. destruct Hsplit as [<- _].
  vm_compute in Hscratch. discriminate Hscratch.
Qed.

(** C8 (amended): in both feature settings and every aliasing of
    destination and sources, with the scratch handle distinct from them,
    [I64x2ExtMul] emits three instructions and no copy: two shuffles that
    put into scratch and destination the pattern [dup_half] of source 1 and
    of source 2 (each doubleword of the low half twice when [low] is set, of
    the high half otherwise; the pattern depends on [low] only), then one
    signed or unsigned widening multiplication of the two patterns, which
    leaves the value of the scalar reference in the destination. *)
Theorem I64x2ExtMul_steps (cpu : CpuFeature -> bool)
    (dst src1 src2 scratch : XMMRegister) (low is_signed : bool)
    (s : RegFile) :
  scratch_distinct
    (Op_I64x2ExtMul dst src1 src2 scratch low is_signed) = true ->
  exists p,
    assemble (I64x2ExtMul cpu dst src1 src2 scratch low is_signed) = Code p /\
    length p = 3%nat /\
    shuffles_then_multiplies dup_half p s dst src1 src2 scratch
      low is_signed /\
    exec p s dst = ref_extmul 32 low is_signed (s src1) (s src2).
Proof.
  unfold scratch_distinct, shuffles_then_multiplies.
  cbn [op_dst op_scratch op_sources forallb]. intros Hd; bools.
  rewrite <- extmul64_value. unfold I64x2ExtMul.
  destruct (cpu AVX), low, is_signed;
    cbv [assemble seq emit nop CpuFeatureScope]; cbn [app];
    eexists; (split; [reflexivity|]); (split; [reflexivity|]);
    (split; [eexists [_; _], _; (split; [reflexivity|]);
             (split; [reflexivity|])|]);
    cbn [exec]; unfold step; cbn [effect fst snd]; unfold upd;
    split_regs;
    rewrite ?unpckl32_self, ?unpckh32_self;
    rewrite ?shufd_0x50, ?shufd_0xFA;
    rewrite ?(muldq_comm _ (dup_half _ (s src2)));
    repeat split.
Qed.

Lemma I64x2ExtMul_steps_witness :
  exists p,
    assemble (I64x2ExtMul without_avx xmm0 xmm0 xmm1 xmm2 false true) =
      Code p /\
    length p = 3%nat /\
    shuffles_then_multiplies dup_half p all_1234 xmm0 xmm0 xmm1 xmm2
      false true /\
    exec p all_1234 xmm0 =
      ref_extmul 32 false true (all_1234 xmm0) (all_1234 xmm1).
Proof.
  apply (I64x2ExtMul_steps without_avx xmm0 xmm0 xmm1 xmm2 false true
           all_1234); reflexivity.
Defined.

(** C9: for every routine that takes a scratch register, called with the
    scratch handle distinct from the destination and the sources, code is
    emitted (no debug check standing in the way) and two runs from register
    files that differ in the scratch register only leave the same value in
    the destination. *)
Theorem scratch_contents_do_not_matter (cpu : CpuFeature -> bool)
    (dbg : bool) (op : Operation) (t : XMMRegister) (s1 s2 : RegFile) :
  op_scratch op = Some t ->
  scratch_distinct op = true ->
  dcheck_passes cpu dbg op = true ->
  (forall r, r <> t -> s1 r = s2 r) ->
  exists v,
    result (call cpu dbg op) s1 (op_dst op) = Some v /\
    result (call cpu dbg op) s2 (op_dst op) = Some v.
Proof.
  intros Ht Hd Hp Hs.
  pose proof (result_agree cpu dbg op t s1 s2 Ht Hd Hs) as Heq.
  destruct (call_emits cpu dbg op Hp) as [p Hcode].
  unfold result, run in *. rewrite Hcode in *.
  eexists; split; [reflexivity | symmetry; exact Heq].
Qed.

Lemma scratch_contents_do_not_matter_witness :
  exists v,
    result (call without_avx true (Op_I16x8ExtMulHighU xmm0 xmm0 xmm1 xmm2))
      all_1_to_16 xmm0 = Some v /\
    result (call without_avx true (Op_I16x8ExtMulHighU xmm0 xmm0 xmm1 xmm2))
      (upd xmm2 0 all_1_to_16) xmm0 = Some v.
Proof.
  apply (scratch_contents_do_not_matter without_avx true
           (Op_I16x8ExtMulHighU xmm0 xmm0 xmm1 xmm2) xmm2
           all_1_to_16 (upd xmm2 0 all_1_to_16));
    try reflexivity.
  intros r Hr. unfold upd. destruct (Nat.eqb_spec r xmm2);
    [contradiction | reflexivity].
Defined.

(** C10: a call writes its destination and its scratch register only: when
    code is emitted, every other register, the sources among them, holds
    after the run the value it held before. *)
Theorem only_dst_and_scratch_written (cpu : CpuFeature -> bool) (dbg : bool)
    (op : Operation) (s : RegFile) (r : XMMRegister) :
  dcheck_passes cpu dbg op = true ->
  ~ In r (op_written op) ->
  exists s', run (call cpu dbg op) s = Some s' /\ s' r = s r.
Proof.
  intros Hp Hr. destruct (call_emits cpu dbg op Hp) as [p Hcode].
  unfold run. rewrite Hcode. eexists; split; [reflexivity|].
  apply exec_frame.
  pose proof (call_targets cpu dbg op p Hcode) as Ht.
  eapply Forall_impl; [|exact Ht].
  intros i Hi E. apply Hr. rewrite <- E. exact Hi.
Qed.

Lemma only_dst_and_scratch_written_witness :
  exists s',
    run (call without_avx true (Op_I16x8ExtMulHighS xmm0 xmm1 xmm3 xmm2))
      all_1_to_16 = Some s' /\
    s' xmm1 = all_1_to_16 xmm1.
Proof.
  apply (only_dst_and_scratch_written without_avx true
           (Op_I16x8ExtMulHighS xmm0 xmm1 xmm3 xmm2) all_1_to_16 xmm1).
  - reflexivity.
  - cbn. intros [H | [H | []]]; discriminate H.
Defined.

(* ================================================================== *)
(** ** Further properties of the routines *)

(** *** Extension keeps the value *)

Lemma signed_range (w x : Z) :
  0 < w -> - 2 ^ (w - 1) <= signed w x < 2 ^ (w - 1).
Proof.
  intros Hw. unfold signed.
  pose proof (trunc_range w x ltac:(lia)) as Hr.
  assert (E : 2 ^ w = 2 * 2 ^ (w - 1)).
  { replace w with (1 + (w - 1)) at 1 by ring.
    rewrite Z.pow_add_r by lia. reflexivity. }
  destruct (Z.ltb_spec (trunc w x) (2 ^ (w - 1))); lia.
Qed.

Lemma signed_small (w p : Z) :
  0 < w -> - 2 ^ (w - 1) <= p < 2 ^ (w - 1) -> signed w p = p.
Proof.
  intros Hw Hp.
  assert (E : 2 ^ w = 2 * 2 ^ (w - 1)).
  { replace w with (1 + (w - 1)) at 1 by ring.
    rewrite Z.pow_add_r by lia. reflexivity. }
  unfold signed, trunc. destruct (Z_lt_le_dec p 0) as [Hneg | Hpos].
  - replace (p mod 2 ^ w) with (p + 2 ^ w).
    + destruct (Z.ltb_spec (p + 2 ^ w) (2 ^ (w - 1))); lia.
    + symmetry. rewrite <- (Z_mod_plus_full p 1 (2 ^ w)).
      rewrite Z.mul_1_l. apply Z.mod_small; lia.
  - rewrite Z.mod_small by lia.
    destruct (Z.ltb_spec p (2 ^ (w - 1))); lia.
Qed.

Lemma signed_trunc (w p : Z) : 0 <= w -> signed w (trunc w p) = signed w p.
Proof. intros Hw. unfold signed. rewrite trunc_idem by assumption. reflexivity. Qed.

Lemma extend_trunc (sg : bool) (w p : Z) :
  0 <= w -> extend sg w (trunc w p) = extend sg w p.
Proof.
  intros; destruct sg; cbn [extend];
    [apply signed_trunc | apply trunc_idem]; assumption.
Qed.

Lemma pow2_double (w : Z) : 0 < w -> 2 ^ (2 * w - 1) = 2 * (2 ^ (w - 1) * 2 ^ (w - 1)).
Proof.
  intros Hw. replace (2 * w - 1) with (1 + ((w - 1) + (w - 1))) by ring.
  rewrite !Z.pow_add_r by lia. reflexivity.
Qed.

(** A product of two extended [w]-bit lanes fits a lane of width [2w]. *)
Lemma extend_product (sg : bool) (w x y : Z) :
  0 < w ->
  extend sg (2 * w) (extend sg w x * extend sg w y) =
  extend sg w x * extend sg w y.
Proof.
  intros Hw. destruct sg; cbn [extend].
  - apply signed_small; [lia|].
    pose proof (signed_range w x Hw). pose proof (signed_range w y Hw).
    rewrite pow2_double by assumption.
    pose proof (pow2_pos (w - 1) ltac:(lia)). nia.
  - apply trunc_small.
    pose proof (trunc_range w x ltac:(lia)).
    pose proof (trunc_range w y ltac:(lia)).
    replace (2 * w) with (w + w) by ring. rewrite Z.pow_add_r by lia. nia.
Qed.

(** An extended [w]-bit lane fits a lane of width [2w]. *)
Lemma extend_twice (sg : bool) (w x : Z) :
  0 < w -> extend sg (2 * w) (extend sg w x) = extend sg w x.
Proof.
  intros Hw. destruct sg; cbn [extend].
  - apply signed_small; [lia|].
    pose proof (signed_range w x Hw).
    rewrite pow2_double by assumption.
    pose proof (pow2_pos (w - 1) ltac:(lia)). nia.
  - apply trunc_small.
    pose proof (trunc_range w x ltac:(lia)).
    replace (2 * w) with (w + w) by ring. rewrite Z.pow_add_r by lia.
    pose proof (pow2_pos w ltac:(lia)). nia.
Qed.

Lemma zip_with_map (f : Z -> Z) (xs ys : list Z) :
  zip_with Z.mul (map f xs) (map f ys) =
  zip_with (fun x y => f x * f y) xs ys.
Proof.
  revert ys; induction xs as [|x xs IH]; intros [|y ys]; cbn;
    try reflexivity.
  rewrite IH; reflexivity.
Qed.

(** The lanes of the reference product, read back with the signedness of the
    multiplication, are the integer products of the extended source lanes:
    nothing is lost to wrap-around. *)
Lemma ref_extmul_exact (w : Z) (low sg : bool) (a b : Z) :
  w = 8 \/ w = 16 \/ w = 32 ->
  map (extend sg (2 * w)) (vlanes (2 * w) (ref_extmul w low sg a b)) =
  zip_with Z.mul (extended_half w low sg a) (extended_half w low sg b).
Proof.
  intros Hw. unfold extended_half. rewrite zip_with_map.
  unfold ref_extmul; cbv zeta.
  destruct Hw as [-> | [-> | ->]]; destruct low;
    match goal with
    | |- context [vlanes ?w a] => open_lanes w a; open_lanes w b
    end; lists;
    rewrite vlanes_pack by (try reflexivity; lia); lists;
    rewrite !extend_trunc by lia;
    rewrite !extend_product by lia; reflexivity.
Qed.

Lemma ref_convert_exact (w : Z) (sg : bool) (a : Z) :
  w = 8 \/ w = 16 \/ w = 32 ->
  map (extend sg (2 * w)) (vlanes (2 * w) (ref_convert_high w sg a)) =
  extended_half w false sg a.
Proof.
  intros Hw. unfold extended_half, ref_convert_high.
  destruct Hw as [-> | [-> | ->]];
    match goal with
    | |- context [vlanes ?w a] => open_lanes w a
    end; lists;
    rewrite vlanes_pack by (try reflexivity; lia); lists;
    rewrite !extend_trunc by lia;
    rewrite !extend_twice by lia; reflexivity.
Qed.

(** *** What the calls of each family leave *)

Lemma extmul_call_reference (cpu : CpuFeature -> bool) (dbg : bool)
    (op : Operation) (s : RegFile) (w : Z) (low sg : bool)
    (a b : XMMRegister) :
  extmul_params op = Some (w, low, sg, a, b) ->
  scratch_distinct op = true ->
  legacy_precondition cpu op = true ->
  legacy_defect cpu op = false ->
  (w = 8 \/ w = 16 \/ w = 32) /\
  result (call cpu dbg op) s (op_dst op) =
  Some (ref_extmul w low sg (s a) (s b)).
Proof.
  unfold scratch_distinct, legacy_precondition, legacy_defect.
  destruct op; cbn [extmul_params]; intros E; try discriminate E;
    injection E as <- <- <- <- <-;
    cbn [call op_dst op_scratch op_sources forallb];
    intros Hd Hp Hl; (split; [auto|]);
    destruct (cpu AVX) eqn:Hc; cbn [negb andb orb] in Hp, Hl; bools.
  - apply I16x8ExtMulHighS_avx; assumption.
  - apply I16x8ExtMulHighS_legacy; try assumption.
    apply Bool.andb_false_iff in Hl. destruct Hl; bools; auto.
  - apply I16x8ExtMulHighU_avx; assumption.
  - apply I16x8ExtMulHighU_legacy; assumption.
  - apply I32x4ExtMul_avx; assumption.
  - subst. apply I32x4ExtMul_legacy; auto.
  - apply I64x2ExtMul_ok; assumption.
  - apply I64x2ExtMul_ok; assumption.
Qed.

Lemma convert_call_reference (cpu : CpuFeature -> bool) (dbg : bool)
    (op : Operation) (s : RegFile) (w : Z) (sg : bool) (a : XMMRegister) :
  convert_params op = Some (w, sg, a) ->
  scratch_distinct op = true ->
  (w = 8 \/ w = 16 \/ w = 32) /\
  result (call cpu dbg op) s (op_dst op) =
  Some (ref_convert_high w sg (s a)).
Proof.
  unfold scratch_distinct.
  destruct op; cbn [convert_params]; intros E; try discriminate E;
    injection E as <- <- <-;
    cbn [call op_dst op_scratch op_sources forallb];
    intros Hd; (split; [auto|]); bools.
  - apply I16x8SConvertI8x16High_ok.
  - apply I16x8UConvertI8x16High_ok; assumption.
  - apply I32x4SConvertI16x8High_ok.
  - apply I32x4UConvertI16x8High_ok; assumption.
  - apply I64x2SConvertI32x4High_ok.
  - apply I64x2UConvertI32x4High_ok; assumption.
Qed.

(** The extended multiplications do not wrap around: read with the
    signedness of the call, the lanes left in the destination are the
    integer products of the extended lanes of the chosen halves of the two
    sources. *)
Theorem extmul_lanes_are_exact_products (cpu : CpuFeature -> bool)
    (dbg : bool) (op : Operation) (s : RegFile) (w : Z) (low sg : bool)
    (a b : XMMRegister) :
  extmul_params op = Some (w, low, sg, a, b) ->
  scratch_distinct op = true ->
  legacy_precondition cpu op = true ->
  legacy_defect cpu op = false ->
  exists v,
    result (call cpu dbg op) s (op_dst op) = Some v /\
    map (extend sg (2 * w)) (vlanes (2 * w) v) =
    zip_with Z.mul (extended_half w low sg (s a))
      (extended_half w low sg (s b)).
Proof.
  intros E Hd Hp Hl.
  destruct (extmul_call_reference cpu dbg op s w low sg a b E Hd Hp Hl)
    as [Hw Hres].
  eexists; split; [exact Hres|]. apply ref_extmul_exact; assumption.
Qed.

Lemma extmul_lanes_are_exact_products_witness :
  exists v,
    result (call without_avx true
              (Op_I32x4ExtMul xmm0 xmm0 xmm1 xmm2 false true))
      all_1_to_16 xmm0 = Some v /\
    map (extend true (2 * 16)) (vlanes (2 * 16) v) =
    zip_with Z.mul (extended_half 16 false true (all_1_to_16 xmm0))
      (extended_half 16 false true (all_1_to_16 xmm1)).
Proof.
  apply (extmul_lanes_are_exact_products without_avx true
           (Op_I32x4ExtMul xmm0 xmm0 xmm1 xmm2 false true) all_1_to_16
           16 false true xmm0 xmm1); reflexivity.
Defined.

(** The conversions keep the value of every lane: read with the signedness
    of the call, the lanes left in the destination are the extended lanes of
    the high half of the source. *)
Theorem convert_lanes_keep_value (cpu : CpuFeature -> bool) (dbg : bool)
    (op : Operation) (s : RegFile) (w : Z) (sg : bool) (a : XMMRegister) :
  convert_params op = Some (w, sg, a) ->
  scratch_distinct op = true ->
  exists v,
    result (call cpu dbg op) s (op_dst op) = Some v /\
    map (extend sg (2 * w)) (vlanes (2 * w) v) =
    extended_half w false sg (s a).
Proof.
  intros E Hd.
  destruct (convert_call_reference cpu dbg op s w sg a E Hd) as [Hw Hres].
  eexists; split; [exact Hres|]. apply ref_convert_exact; assumption.
Qed.

Lemma convert_lanes_keep_value_witness :
  exists v,
    result (call without_avx false (Op_I16x8SConvertI8x16High xmm0 xmm0))
      (fun _ => pack 8 (repeat 200 16)) xmm0 = Some v /\
    map (extend true (2 * 8)) (vlanes (2 * 8) v) =
    extended_half 8 false true (pack 8 (repeat 200 16)).
Proof.
  apply (convert_lanes_keep_value without_avx false
           (Op_I16x8SConvertI8x16High xmm0 xmm0)
           (fun _ => pack 8 (repeat 200 16)) 8 true xmm0); reflexivity.
Defined.

(** *** The instructions that are emitted *)

Ltac unfold_routines :=
  cbv [I16x8ExtMulHighS I16x8ExtMulHighU I16x8SConvertI8x16High
       I16x8UConvertI8x16High I32x4ExtMul I32x4SConvertI16x8High
       I32x4UConvertI16x8High I64x2ExtMul I64x2SConvertI32x4High
       I64x2UConvertI32x4High
       assemble seq emit when nop CpuFeatureScope DCHECK_EQ].

(** With AVX every emitted instruction is an extended three-operand form,
    without AVX none is. *)
Theorem emitted_instructions_match_feature (cpu : CpuFeature -> bool)
    (dbg : bool) (op : Operation) (p : list Instr) :
  assemble (call cpu dbg op) = Code p ->
  Forall (fun i => is_vex i = cpu AVX) p.
Proof.
  destruct op; cbn [call]; unfold_routines;
    destruct (cpu AVX); try destruct low; try destruct is_signed;
    try destruct dbg; cbn [negb orb andb];
    split_regs; cbn [app]; intros H; try discriminate H;
    injection H as <-;
    repeat first [apply Forall_nil | apply Forall_cons]; reflexivity.
Qed.

Lemma emitted_instructions_match_feature_witness :
  Forall (fun i => is_vex i = without_avx AVX)
    [xorps xmm2 xmm2; punpckhbw xmm0 xmm2; punpckhbw xmm2 xmm1;
     psrlw xmm2 8; pmullw xmm0 xmm2].
Proof.
  apply (emitted_instructions_match_feature without_avx true
           (Op_I16x8ExtMulHighU xmm0 xmm0 xmm1 xmm2)).
  reflexivity.
Defined.


(** *** What the scratch register is needed for *)

(** The unsigned conversions from bytes and from words use the scratch
    register only when the destination is the source.  With a destination
    that is another register the scratch handle may be any register, even the
    source or the destination: the result is the reference, and every
    register but the destination keeps its value. *)
Theorem unsigned_convert_leaves_scratch_alone (cpu : CpuFeature -> bool)
    (dst src scratch : XMMRegister) (s : RegFile) :
  dst <> src ->
  (exists s',
     run (I16x8UConvertI8x16High cpu dst src scratch) s = Some s' /\
     s' dst = ref_convert_high 8 false (s src) /\
     forall r, r <> dst -> s' r = s r) /\
  (exists s',
     run (I32x4UConvertI16x8High cpu dst src scratch) s = Some s' /\
     s' dst = ref_convert_high 16 false (s src) /\
     forall r, r <> dst -> s' r = s r).
Proof.
  intros Hd. unfold I16x8UConvertI8x16High, I32x4UConvertI16x8High.
  destruct (cpu AVX);
    cbv [run assemble seq emit nop CpuFeatureScope]; decide_regs;
    cbn [app exec]; unfold step; cbn [effect fst snd];
    (split; eexists;
     (split; [reflexivity | split;
       [ unfold upd; decide_regs; rewrite ?Z.lxor_nilpotent
       | intros r Hr; unfold upd; decide_regs; reflexivity ]])).
  - apply uconvert8_value.
  - apply uconvert16_value.
  - apply (pmovzx_high 8 _ (s src)); [lia | apply shufd_low_half8].
  - apply (pmovzx_high 16 _ (s src)); [lia | apply shufd_low_half16].
Qed.

Lemma unsigned_convert_leaves_scratch_alone_witness :
  (exists s',
     run (I16x8UConvertI8x16High with_avx xmm0 xmm1 xmm1) all_1_to_16 =
       Some s' /\
     s' xmm0 = ref_convert_high 8 false (all_1_to_16 xmm1) /\
     forall r, r <> xmm0 -> s' r = all_1_to_16 r) /\
  (exists s',
     run (I32x4UConvertI16x8High with_avx xmm0 xmm1 xmm1) all_1_to_16 =
       Some s' /\
     s' xmm0 = ref_convert_high 16 false (all_1_to_16 xmm1) /\
     forall r, r <> xmm0 -> s' r = all_1_to_16 r).
Proof.
  apply (unsigned_convert_leaves_scratch_alone with_avx xmm0 xmm1 xmm1
           all_1_to_16).
  discriminate.
Defined.



(** *** The legacy forms *)

(** The two legacy ways of a signed conversion, [movhlps] for a destination
    that is the source and [pshufd] otherwise, can stand for each other
    whatever the two handles are: followed by the widening instruction they
    leave the same register file. *)
Theorem movhlps_and_pshufd_paths_agree (dst src : XMMRegister)
    (s : RegFile) (r : XMMRegister) :
  exec [movhlps dst src; pmovsxbw dst dst] s r =
    exec [pshufd dst src 0xEE; pmovsxbw dst dst] s r /\
  exec [movhlps dst src; pmovsxwd dst dst] s r =
    exec [pshufd dst src 0xEE; pmovsxwd dst dst] s r /\
  exec [movhlps dst src; pmovsxdq dst dst] s r =
    exec [pshufd dst src 0xEE; pmovsxdq dst dst] s r.
Proof.
  cbn [exec]; unfold step; cbn [effect fst snd]; unfold upd.
  destruct (Nat.eq_dec r dst) as [-> | Hr]; decide_regs.
  - rewrite (pmovsx_high 8 _ (s src) (movhl_low_half8 (s dst) (s src))).
    rewrite (pmovsx_high 8 _ (s src) (shufd_low_half8 (s src))).
    rewrite (pmovsx_high 16 _ (s src) (movhl_low_half16 (s dst) (s src))).
    rewrite (pmovsx_high 16 _ (s src) (shufd_low_half16 (s src))).
    rewrite (pmovsx_high 32 _ (s src) (movhl_low_half32 (s dst) (s src))).
    rewrite (pmovsx_high 32 _ (s src) (shufd_low_half32 (s src))).
    repeat split.
  - repeat split.
Qed.

(** Without AVX a release build of [I32x4ExtMul] takes the low words from
    what the destination holds.  It is the value that counts, not the handle:
    if the destination holds the value of the first source, in whatever
    register that source is, the result is the reference. *)
Theorem I32x4ExtMul_release_needs_the_value (cpu : CpuFeature -> bool)
    (dst src1 src2 scratch : XMMRegister) (low is_signed : bool)
    (s : RegFile) :
  cpu AVX = false ->
  scratch <> dst -> scratch <> src1 -> scratch <> src2 -> src2 <> dst ->
  s dst = s src1 ->
  result (I32x4ExtMul cpu false dst src1 src2 scratch low is_signed) s dst =
  Some (ref_extmul 16 low is_signed (s src1) (s src2)).
Proof.
  intros Hc H1 H2 H3 H4 E.
  rewrite I32x4ExtMul_release by assumption.
  rewrite E, extmul32_value. reflexivity.
Qed.

Lemma I32x4ExtMul_release_needs_the_value_witness :
  result (I32x4ExtMul without_avx false xmm0 xmm1 xmm2 xmm3 true true)
    all_256 xmm0 =
  Some (ref_extmul 16 true true (all_256 xmm1) (all_256 xmm2)).
Proof.
  apply (I32x4ExtMul_release_needs_the_value without_avx xmm0 xmm1 xmm2 xmm3
           true true all_256); first [reflexivity | discriminate].
Defined.

(** *** How calls relate to each other *)

Lemma op_family (op : Operation) :
  (exists w low sg a b, extmul_params op = Some (w, low, sg, a, b)) \/
  (exists w sg a, convert_params op = Some (w, sg, a)).
Proof.
  destruct op; cbn; [left | left | right | right | left | right | right
                     | left | right | right]; repeat eexists.
Qed.

(** Outside the three legacy configurations of [legacy_defect], and with the
    precondition of the legacy [I32x4ExtMul] met, the feature query does not
    show in the result: any two feature settings leave the same value in the
    destination. *)
Theorem feature_choice_is_unobservable (cpu1 cpu2 : CpuFeature -> bool)
    (dbg : bool) (op : Operation) (s : RegFile) :
  scratch_distinct op = true ->
  legacy_precondition cpu1 op = true -> legacy_defect cpu1 op = false ->
  legacy_precondition cpu2 op = true -> legacy_defect cpu2 op = false ->
  exists v,
    result (call cpu1 dbg op) s (op_dst op) = Some v /\
    result (call cpu2 dbg op) s (op_dst op) = Some v.
Proof.
  intros Hd Hp1 Hl1 Hp2 Hl2.
  destruct (op_family op) as [(w & low & sg & a & b & E) | (w & sg & a & E)].
  - destruct (extmul_call_reference cpu1 dbg op s w low sg a b E Hd Hp1 Hl1)
      as [_ R1].
    destruct (extmul_call_reference cpu2 dbg op s w low sg a b E Hd Hp2 Hl2)
      as [_ R2].
    eexists; split; [exact R1 | exact R2].
  - destruct (convert_call_reference cpu1 dbg op s w sg a E Hd) as [_ R1].
    destruct (convert_call_reference cpu2 dbg op s w sg a E Hd) as [_ R2].
    eexists; split; [exact R1 | exact R2].
Qed.

Lemma feature_choice_is_unobservable_witness :
  exists v,
    result (call with_avx true (Op_I16x8ExtMulHighS xmm0 xmm0 xmm1 xmm2))
      twos_and_threes xmm0 = Some v /\
    result (call without_avx true (Op_I16x8ExtMulHighS xmm0 xmm0 xmm1 xmm2))
      twos_and_threes xmm0 = Some v.
Proof.
  apply (feature_choice_is_unobservable with_avx without_avx true
           (Op_I16x8ExtMulHighS xmm0 xmm0 xmm1 xmm2) twos_and_threes);
    reflexivity.
Defined.

(** Exchanging the two sources does not change what is left in the
    destination, in any aliasing of destination and sources with a distinct
    scratch register: for every multiplication with AVX, and without AVX for
    [I16x8ExtMulHighU] and [I64x2ExtMul]. *)
Theorem swapping_sources_keeps_result (cpu : CpuFeature -> bool) (dbg : bool)
    (op : Operation) (s : RegFile) :
  scratch_distinct op = true ->
  sources_symmetric cpu op = true ->
  exists v,
    result (call cpu dbg op) s (op_dst op) = Some v /\
    result (call cpu dbg (swap_sources op)) s (op_dst op) = Some v.
Proof.
  unfold scratch_distinct, sources_symmetric.
  destruct op;
    cbn [call swap_sources op_dst op_scratch op_sources forallb];
    intros Hd Hs; destruct (cpu AVX) eqn:Hc; cbn [orb] in Hs;
    try discriminate Hs; bools.
  - eexists; split; [apply I16x8ExtMulHighS_avx; assumption|].
    rewrite ref_extmul_comm. apply I16x8ExtMulHighS_avx; assumption.
  - eexists; split; [apply I16x8ExtMulHighU_avx; assumption|].
    rewrite ref_extmul_comm. apply I16x8ExtMulHighU_avx; assumption.
  - destruct (Nat.eq_dec src1 src2) as [-> | Hne].
    + eexists; split; apply I16x8ExtMulHighU_legacy_self; assumption.
    + eexists; split; [apply I16x8ExtMulHighU_legacy; assumption|].
      rewrite ref_extmul_comm. apply I16x8ExtMulHighU_legacy; auto.
  - eexists; split; apply I16x8SConvertI8x16High_ok.
  - eexists; split; apply I16x8SConvertI8x16High_ok.
  - eexists; split; apply I16x8UConvertI8x16High_ok; assumption.
  - eexists; split; apply I16x8UConvertI8x16High_ok; assumption.
  - eexists; split; [apply I32x4ExtMul_avx; assumption|].
    rewrite ref_extmul_comm. apply I32x4ExtMul_avx; assumption.
  - eexists; split; apply I32x4SConvertI16x8High_ok.
  - eexists; split; apply I32x4SConvertI16x8High_ok.
  - eexists; split; apply I32x4UConvertI16x8High_ok; assumption.
  - eexists; split; apply I32x4UConvertI16x8High_ok; assumption.
  - eexists; split; [apply I64x2ExtMul_ok; assumption|].
    rewrite ref_extmul_comm. apply I64x2ExtMul_ok; assumption.
  - eexists; split; [apply I64x2ExtMul_ok; assumption|].
    rewrite ref_extmul_comm. apply I64x2ExtMul_ok; assumption.
  - eexists; split; apply I64x2SConvertI32x4High_ok.
  - eexists; split; apply I64x2SConvertI32x4High_ok.
  - eexists; split; apply I64x2UConvertI32x4High_ok; assumption.
  - eexists; split; apply I64x2UConvertI32x4High_ok; assumption.
Qed.

Lemma swapping_sources_keeps_result_witness :
  exists v,
    result (call without_avx false (Op_I16x8ExtMulHighU xmm0 xmm1 xmm0 xmm2))
      twos_and_threes xmm0 = Some v /\
    result (call without_avx false
              (swap_sources (Op_I16x8ExtMulHighU xmm0 xmm1 xmm0 xmm2)))
      twos_and_threes xmm0 = Some v.
Proof.
  apply (swapping_sources_keeps_result without_avx false
           (Op_I16x8ExtMulHighU xmm0 xmm1 xmm0 xmm2) twos_and_threes);
    reflexivity.
Defined.




(** Converting twice, bytes to words and words to doublewords, extends the
    four highest bytes. *)
Lemma extend_four (sg : bool) (x : Z) :
  extend sg 32 (extend sg 8 x) = extend sg 8 x.
Proof.
  pose proof (extend_twice sg 8 x ltac:(lia)) as E1.
  pose proof (extend_twice sg 16 (extend sg 8 x) ltac:(lia)) as E2.
  change (2 * 8) with 16 in E1. change (2 * 16) with 32 in E2.
  rewrite E1 in E2. exact E2.
Qed.

Lemma convert_twice (sg : bool) (a : Z) :
  map (extend sg 32)
    (vlanes 32 (ref_convert_high 16 sg (ref_convert_high 8 sg a))) =
  map (extend sg 8) (high_half (high_half (vlanes 8 a))).
Proof.
  unfold ref_convert_high. change (2 * 8) with 16. change (2 * 16) with 32.
  open_lanes 8 a. lists.
  rewrite (vlanes_pack 16) by (try reflexivity; lia). lists.
  rewrite (vlanes_pack 32) by (try reflexivity; lia). lists.
  rewrite !extend_trunc by lia.
  change 16 with (2 * 8). rewrite !extend_twice by lia.
  rewrite !extend_four. reflexivity.
Qed.

Lemma high_half_Forall (P : Z -> Prop) (l : list Z) :
  Forall P l -> Forall P (high_half l).
Proof.
  intros H. unfold high_half. generalize (Nat.div2 (length l)).
  induction H as [|x l Hx Hl IH]; intros [|n]; cbn [skipn];
    try constructor; auto.
Qed.

(** Recognise the value left by a conversion sequence. *)
Ltac fold_converts :=
  repeat match goal with
    | |- context [pmovsx 8 (movhl ?x ?a)] =>
        rewrite (pmovsx_high 8 (movhl x a) a (movhl_low_half8 x a))
    | |- context [pmovsx 16 (movhl ?x ?a)] =>
        rewrite (pmovsx_high 16 (movhl x a) a (movhl_low_half16 x a))
    | |- context [pmovsx 8 (shufd ?a 238)] =>
        rewrite (pmovsx_high 8 (shufd a 238) a (shufd_low_half8 a))
    | |- context [pmovsx 16 (shufd ?a 238)] =>
        rewrite (pmovsx_high 16 (shufd a 238) a (shufd_low_half16 a))
    | |- context [pmovzx 8 (shufd ?a 238)] =>
        rewrite (pmovzx_high 8 (shufd a 238) a ltac:(lia)
                   (shufd_low_half8 a))
    | |- context [pmovzx 16 (shufd ?a 238)] =>
        rewrite (pmovzx_high 16 (shufd a 238) a ltac:(lia)
                   (shufd_low_half16 a))
    | |- context [psra 16 (unpckh 8 ?a ?a) 8] =>
        rewrite (sconvert8_avx_value a)
    | |- context [psra 32 (unpckh 16 ?a ?a) 16] =>
        rewrite (sconvert16_avx_value a)
    | |- context [unpckh 8 ?a 0] => rewrite (uconvert8_value a)
    | |- context [unpckh 16 ?a 0] => rewrite (uconvert16_value a)
    end.

(** Two signed conversions in a row, bytes to words into [dst] and then
    words to doublewords in place, leave in [dst] the four highest bytes of
    the source sign-extended to 32 bits, for every aliasing of [dst] and
    [src] and both feature settings. *)
Theorem signed_conversions_compose (cpu : CpuFeature -> bool)
    (dst src : XMMRegister) (s : RegFile) :
  exists v,
    result (I16x8SConvertI8x16High cpu dst src ;;
            I32x4SConvertI16x8High cpu dst dst) s dst = Some v /\
    map (signed 32) (vlanes 32 v) =
    map (signed 8) (high_half (high_half (vlanes 8 (s src)))).
Proof.
  exists (ref_convert_high 16 true (ref_convert_high 8 true (s src))).
  split; [|apply (convert_twice true)].
  unfold I16x8SConvertI8x16High, I32x4SConvertI16x8High.
  destruct (cpu AVX); emitted; fold_converts; reflexivity.
Qed.

(** The same for two unsigned conversions with a scratch register that is
    neither [dst] nor [src]: the four highest bytes zero-extended to 32
    bits. *)
Theorem unsigned_conversions_compose (cpu : CpuFeature -> bool)
    (dst src scratch : XMMRegister) (s : RegFile) :
  scratch <> dst -> scratch <> src ->
  exists v,
    result (I16x8UConvertI8x16High cpu dst src scratch ;;
            I32x4UConvertI16x8High cpu dst dst scratch) s dst = Some v /\
    vlanes 32 v = high_half (high_half (vlanes 8 (s src))).
Proof.
  intros H1 H2.
  exists (ref_convert_high 16 false (ref_convert_high 8 false (s src))).
  split.
  - unfold I16x8UConvertI8x16High, I32x4UConvertI16x8High.
    destruct (cpu AVX); emitted; fold_converts; reflexivity.
  - pose proof (convert_twice false (s src)) as E.
    rewrite (zero_extend_lanes 32) in E by (apply vlanes_range; lia).
    rewrite (zero_extend_lanes 8) in E; [exact E|].
    apply high_half_Forall, high_half_range; lia.
Qed.

Lemma unsigned_conversions_compose_witness :
  exists v,
    result (I16x8UConvertI8x16High without_avx xmm0 xmm0 xmm1 ;;
            I32x4UConvertI16x8High without_avx xmm0 xmm0 xmm1)
      all_1_to_16 xmm0 = Some v /\
    vlanes 32 v = high_half (high_half (vlanes 8 (all_1_to_16 xmm0))).
Proof.
  apply (unsigned_conversions_compose without_avx xmm0 xmm0 xmm1
           all_1_to_16); discriminate.
Defined.

(** *** Signed against unsigned *)

Lemma extend_nonnegative (w x : Z) :
  0 <= x < 2 ^ (w - 1) -> 0 < w -> extend true w x = extend false w x.
Proof.
  intros Hx Hw. cbn [extend]. unfold signed.
  assert (E : 2 ^ w = 2 * 2 ^ (w - 1)).
  { replace w with (1 + (w - 1)) at 1 by ring.
    rewrite Z.pow_add_r by lia. reflexivity. }
  rewrite (trunc_small w x) by lia.
  destruct (Z.ltb_spec x (2 ^ (w - 1))); [reflexivity | lia].
Qed.

Lemma map_extend_nonnegative (w : Z) (l : list Z) :
  0 < w -> Forall (fun x => 0 <= x < 2 ^ (w - 1)) l ->
  map (extend true w) l = map (extend false w) l.
Proof.
  intros Hw H; induction H as [|x l Hx _ IH]; cbn [map]; [reflexivity|].
  rewrite IH, extend_nonnegative by assumption. reflexivity.
Qed.

Lemma ref_extmul_by_halves (w : Z) (low sg : bool) (a b : Z) :
  ref_extmul w low sg a b =
  pack (2 * w)
    (zip_with Z.mul (extended_half w low sg a) (extended_half w low sg b)).
Proof.
  unfold ref_extmul, extended_half; cbv zeta. rewrite zip_with_map.
  destruct low; reflexivity.
Qed.

(** On sources whose lanes of the chosen half have the top bit clear, the
    signed and the unsigned multiplication of the same width leave the same
    value in their destinations. *)
Theorem signed_and_unsigned_multiply_agree (cpu : CpuFeature -> bool)
    (dbg : bool) (ops opu : Operation) (s : RegFile) (w : Z) (low : bool)
    (a b : XMMRegister) :
  extmul_params ops = Some (w, low, true, a, b) ->
  extmul_params opu = Some (w, low, false, a, b) ->
  scratch_distinct ops = true -> scratch_distinct opu = true ->
  legacy_precondition cpu ops = true -> legacy_defect cpu ops = false ->
  legacy_precondition cpu opu = true -> legacy_defect cpu opu = false ->
  Forall (fun x => 0 <= x < 2 ^ (w - 1))
    ((if low then low_half else high_half) (vlanes w (s a))) ->
  Forall (fun x => 0 <= x < 2 ^ (w - 1))
    ((if low then low_half else high_half) (vlanes w (s b))) ->
  exists v,
    result (call cpu dbg ops) s (op_dst ops) = Some v /\
    result (call cpu dbg opu) s (op_dst opu) = Some v.
Proof.
  intros Es Eu Hds Hdu Hps Hls Hpu Hlu Fa Fb.
  destruct (extmul_call_reference cpu dbg ops s w low true a b Es Hds Hps Hls)
    as [Hw Rs].
  destruct (extmul_call_reference cpu dbg opu s w low false a b Eu Hdu Hpu Hlu)
    as [_ Ru].
  eexists; split; [exact Rs|]. rewrite Ru. f_equal.
  rewrite !ref_extmul_by_halves. unfold extended_half.
  rewrite !(map_extend_nonnegative w) by (assumption || lia).
  reflexivity.
Qed.

Lemma signed_and_unsigned_multiply_agree_witness :
  exists v,
    result (call without_avx true (Op_I16x8ExtMulHighS xmm0 xmm0 xmm1 xmm2))
      all_1_to_16 xmm0 = Some v /\
    result (call without_avx true (Op_I16x8ExtMulHighU xmm0 xmm0 xmm1 xmm2))
      all_1_to_16 xmm0 = Some v.
Proof.
  apply (signed_and_unsigned_multiply_agree without_avx true
           (Op_I16x8ExtMulHighS xmm0 xmm0 xmm1 xmm2)
           (Op_I16x8ExtMulHighU xmm0 xmm0 xmm1 xmm2)
           all_1_to_16 8 false xmm0 xmm1);
    try reflexivity;
    vm_compute; repeat constructor; discriminate.
Defined.

(** *** The legacy forms on aliased sources *)

(** Without AVX, [I16x8ExtMulHighU] called with one register for both
    sources leaves zero in the destination, whatever the registers hold and
    whether or not the destination is that register. *)
Theorem I16x8ExtMulHighU_legacy_one_source_register (cpu : CpuFeature -> bool)
    (dbg : bool) (dst src scratch : XMMRegister) (s : RegFile) :
  cpu AVX = false -> scratch <> dst -> scratch <> src ->
  result (call cpu dbg (Op_I16x8ExtMulHighU dst src src scratch)) s dst =
  Some 0.
Proof. intros; cbn [call]; apply I16x8ExtMulHighU_legacy_self; assumption. Qed.

Lemma I16x8ExtMulHighU_legacy_one_source_register_witness :
  result (call without_avx true (Op_I16x8ExtMulHighU xmm0 xmm1 xmm1 xmm2))
    twos_and_threes xmm0 = Some 0.
Proof.
  apply (I16x8ExtMulHighU_legacy_one_source_register without_avx true
           xmm0 xmm1 xmm2 twos_and_threes);
    first [reflexivity | discriminate].
Defined.

(** Without AVX, [I16x8ExtMulHighS] called with the destination on the
    second source only does not see that source: it leaves the product of the
    first source with itself, so register files that differ in the
    destination only give the same result. *)
Theorem I16x8ExtMulHighS_legacy_ignores_second_source
    (cpu : CpuFeature -> bool) (dbg : bool)
    (dst src1 scratch : XMMRegister) (s1 s2 : RegFile) :
  cpu AVX = false -> scratch <> dst -> dst <> src1 ->
  s1 src1 = s2 src1 ->
  result (call cpu dbg (Op_I16x8ExtMulHighS dst src1 dst scratch)) s1 dst =
    Some (ref_extmul 8 false true (s1 src1) (s1 src1)) /\
  result (call cpu dbg (Op_I16x8ExtMulHighS dst src1 dst scratch)) s2 dst =
    Some (ref_extmul 8 false true (s1 src1) (s1 src1)).
Proof.
  intros Hc H1 H2 E. cbn [call]. split.
  - apply I16x8ExtMulHighS_legacy_overwrite; auto.
  - rewrite E. apply I16x8ExtMulHighS_legacy_overwrite; auto.
Qed.

Lemma I16x8ExtMulHighS_legacy_ignores_second_source_witness :
  result (call without_avx true (Op_I16x8ExtMulHighS xmm0 xmm1 xmm0 xmm2))
    twos_and_threes xmm0 =
    Some (ref_extmul 8 false true (twos_and_threes xmm1)
            (twos_and_threes xmm1)) /\
  result (call without_avx true (Op_I16x8ExtMulHighS xmm0 xmm1 xmm0 xmm2))
    (upd xmm0 0 twos_and_threes) xmm0 =
    Some (ref_extmul 8 false true (twos_and_threes xmm1)
            (twos_and_threes xmm1)).
Proof.
  apply (I16x8ExtMulHighS_legacy_ignores_second_source without_avx true
           xmm0 xmm1 xmm2 twos_and_threes (upd xmm0 0 twos_and_threes));
    first [reflexivity | discriminate].
Defined.
